(** * Lemur notifications: expiration scanning, interval matching, dispatch

    A shallow embedding of [lemur/notifications/messaging.py] and
    [lemur/deployment/service.py], with the test notification plugin,
    the email plugin and the notification service that go with them.
    Python objects become records, the
    ORM query becomes a filter over the certificate table, exceptions
    become the [Raise] branch of a result type, and the calls that talk
    to the outside (logger, metrics, sentry, plugins, database) are
    recorded in a trace threaded through a small state-and-error monad.

    Conventions of the model:
    - [arrow.utcnow()] is the parameter [now]; one scan runs within one
      instant.
    - Logger, metrics and sentry calls are recorded and do not raise;
      the exceptions of the model are instances of [Exception], but
      for the section on the exceptions outside it.
    - The flags [notify], [expired] and [revoked] of a certificate are
      booleans, as the data model of the spec has them. *)

From Stdlib Require Import ZArith List String Ascii Bool Lia DecimalString.
From stdpp Require Import base gmap strings list functions.
Import ListNotations.

Local Open Scope Z_scope.
Local Open Scope string_scope.
Local Open Scope list_scope.

(** ** Python values and exceptions *)

(** The JSON values an option of a notification can carry. *)
Inductive pyval :=
| PyNone
| PyInt (z : Z)
| PyStr (s : string).

(** [str(v)], as an f-string renders it. *)
Definition py_str (v : pyval) : string :=
  match v with
  | PyNone => "None"
  | PyInt z => NilZero.string_of_int (Z.to_int z)
  | PyStr s => s
  end.

(** The double quote, and the message of [left + right] when [left] is
    a list or a str and [right] is of another type. *)
Definition dquote : string := String (ascii_of_nat 34) EmptyString.

Definition concat_error (left right : string) : string :=
  String.append "can only concatenate "
    (String.append left
       (String.append " (not "
          (String.append dquote
             (String.append right
                (String.append dquote (String.append ") to " left)))))).

(** Instances of Python's [Exception] class, which is what
    [except Exception] catches. *)
Inductive exn :=
| Exception (msg : string)
| TypeError (msg : string)
| ValueError (msg : string)
| AttributeError (msg : string)
| PluginFailure (msg : string).

Inductive result (A : Type) :=
| Ok (a : A)
| Raise (e : exn).
Arguments Ok {A} a.
Arguments Raise {A} e.

Definition is_ok {A} (r : result A) : bool :=
  match r with Ok _ => true | Raise _ => false end.

(** [v == s] for a string literal [s]. *)
Definition py_eq_str (v : pyval) (s : string) : bool :=
  match v with
  | PyStr t => String.eqb t s
  | _ => false
  end.

(** [d == v] for an int [d]: an int equals neither a str nor [None]. *)
Definition py_eq_int (d : Z) (v : pyval) : bool :=
  match v with
  | PyInt z => Z.eqb d z
  | _ => false
  end.

Fixpoint str_repeat (n : nat) (s : string) : string :=
  match n with
  | O => ""
  | S n' => String.append s (str_repeat n' s)
  end.

(** [v *= k] for a positive int literal [k]: product on ints,
    repetition on strs, [TypeError] on [None]. *)
Definition py_imul (v : pyval) (k : Z) : result pyval :=
  match v with
  | PyInt z => Ok (PyInt (z * k))
  | PyStr s => Ok (PyStr (str_repeat (Z.to_nat k) s))
  | PyNone =>
      Raise (TypeError "unsupported operand type(s) for *=: 'NoneType' and 'int'")
  end.

(** ** Data model *)

Module PluginOption.
Record t := mk { name : string; value : pyval }.
End PluginOption.

(** Modelled from the spec: [get_plugin_option] of [lemur.plugins.utils]
    is imported by the sources but is not among them.  The spec has the
    matching read [interval] and [unit] out of the notification's options:
    the value of the first option of that name, [None] when the loop
    finds none. *)
Fixpoint get_plugin_option (name : string) (options : list PluginOption.t) : pyval :=
  match options with
  | [] => PyNone
  | o :: rest =>
      if String.eqb (PluginOption.name o) name then PluginOption.value o
      else get_plugin_option name rest
  end.

(** [lemur.constants]: two distinct status tags. *)
Inductive metric_status := SUCCESS_METRIC_STATUS | FAILURE_METRIC_STATUS.

Definition metric_status_eqb (a b : metric_status) : bool :=
  match a, b with
  | SUCCESS_METRIC_STATUS, SUCCESS_METRIC_STATUS => true
  | FAILURE_METRIC_STATUS, FAILURE_METRIC_STATUS => true
  | _, _ => false
  end.

(** One dumped certificate, as the output schemas hand it to a plugin;
    [security_email] is the key the dispatch functions add. *)
Module CertData.
Record t := mk {
  name : string;
  owner : string;
  security_email : option (list string) }.
End CertData.

(** The [data] argument of a send: one dumped certificate, or the list
    of them the expiration scan collects. *)
Inductive message :=
| MsgOne (d : CertData.t)
| MsgMany (ds : list CertData.t).

(** What the code does to the outside world, in order. *)
Inductive event :=
| LoggerDebug (function : string) (notification_type : string) (plugin_slug : string)
| LoggerError (function : string) (notification_type : string) (plugin_slug : string)
| SentryCapture (e : exn)
| MetricsSend (status : metric_status) (event_type : string) (plugin_slug : string)
| PluginSend (plugin_slug : string) (notification_type : string) (data : message)
             (targets : list string) (options : option (list PluginOption.t)).

(** A plugin, polymorphic over [send] and [get_recipients].  What an
    external plugin does on a send is not the program's to decide: it
    returns ([None]) or raises ([Some e]), and may take into account all
    that happened before.  The options and the additional recipients
    arrive as Python passes them, [None] included. *)
Module Plugin.
Record t := mk {
  slug : string;
  send : list event -> string -> message -> list string ->
         option (list PluginOption.t) -> option exn;
  get_recipients : list PluginOption.t -> option (list string) ->
                   result (list string) }.
End Plugin.

Module Notification.
Record t := mk {
  id : Z;
  label : string;
  active : bool;
  options : list PluginOption.t;
  plugin : Plugin.t;
  enable_rotation : bool }.
End Notification.

Module Certificate.
Record t := mk {
  id : Z;
  name : string;
  owner : string;
  not_after : Z;
  notify : bool;
  expired : bool;
  revoked : bool;
  root_authority_id : option Z;
  authority_id : option Z;
  notifications : list Notification.t }.
End Certificate.

(** ** Time *)

(** Instants are microseconds since the epoch; [timedelta(days=1)]. *)
Definition one_day : Z := 86400000000.

(** [timedelta(days=n)] *)
Definition timedelta_days (n : Z) : Z := n * one_day.

(** [(a - b).days]: a timedelta keeps its days rounded down. *)
Definition days_between (a b : Z) : Z := (a - b) / one_day.

(** Truth value of a list: empty is falsy. *)
Definition truthy_list {A} (l : list A) : bool :=
  match l with [] => false | _ :: _ => true end.

(** ** Interval matching *)

(** The [if]/[elif] chain on [unit]. *)
Definition apply_unit (interval unit : pyval) : result pyval :=
  if py_eq_str unit "weeks" then py_imul interval 7
  else if py_eq_str unit "months" then py_imul interval 30
  else if py_eq_str unit "days" then Ok interval
  else Raise (Exception (String.append "Invalid base unit for expiration interval: "
                                      (py_str unit))).

(** The [for] loop of [needs_expiration_notification], [acc] being the
    list [notifications] built so far. *)
Fixpoint needs_expiration_loop (days : Z) (todo acc : list Notification.t)
  : result (list Notification.t) :=
  match todo with
  | [] => Ok acc
  | notification :: rest =>
      if negb (Notification.active notification)
         || negb (truthy_list (Notification.options notification))
      then needs_expiration_loop days rest acc
      else
        let interval := get_plugin_option "interval" (Notification.options notification) in
        let unit := get_plugin_option "unit" (Notification.options notification) in
        match apply_unit interval unit with
        | Raise e => Raise e
        | Ok interval =>
            if py_eq_int days interval
            then needs_expiration_loop days rest (acc ++ [notification])
            else needs_expiration_loop days rest acc
        end
  end.

Definition needs_expiration_notification (now : Z) (certificate : Certificate.t)
  : result (list Notification.t) :=
  let days := days_between (Certificate.not_after certificate) now in
  needs_expiration_loop days (Certificate.notifications certificate) [].

(** ** The certificate table and its queries *)

(** Lower case of an ASCII letter.  [ILIKE] folds the case of both
    sides; on ASCII text that is this folding.  The database also folds
    letters outside ASCII, which the model does not: what is proved of
    [ilike] is proved for ASCII names and patterns ([is_ascii]). *)
Definition lower (c : ascii) : ascii :=
  let n := nat_of_ascii c in
  if (Nat.leb 65 n && Nat.leb n 90)%bool then ascii_of_nat (n + 32) else c.

(** SQL's [LIKE] patterns as the database reads them: [%] stands for any
    run of characters, [_] for any one character, a backslash takes the
    character after it literally. *)
Inductive like_token :=
| LikeAny
| LikeOne
| LikeChar (c : ascii).

Fixpoint like_tokens (pattern : list ascii) : list like_token :=
  match pattern with
  | [] => []
  | c :: rest =>
      if Ascii.eqb c "\" then
        match rest with
        | [] => [LikeChar c]
        | d :: rest' => LikeChar d :: like_tokens rest'
        end
      else if Ascii.eqb c "%" then LikeAny :: like_tokens rest
      else if Ascii.eqb c "_" then LikeOne :: like_tokens rest
      else LikeChar c :: like_tokens rest
  end.

Fixpoint like_match (p : list like_token) (s : list ascii) : bool :=
  match p with
  | [] => match s with [] => true | _ :: _ => false end
  | LikeAny :: p' =>
      (fix skip (s : list ascii) : bool :=
         like_match p' s
         || match s with [] => false | _ :: s' => skip s' end) s
  | LikeOne :: p' =>
      match s with [] => false | _ :: s' => like_match p' s' end
  | LikeChar c :: p' =>
      match s with
      | [] => false
      | d :: s' => Ascii.eqb (lower c) (lower d) && like_match p' s'
      end
  end.

(** A string of ASCII characters only. *)
Definition is_ascii (s : string) : bool :=
  forallb (fun c => Nat.ltb (nat_of_ascii c) 128) (list_ascii_of_string s).

(** [column.ilike(pattern)], on ASCII text. *)
Definition ilike (column pattern : string) : bool :=
  like_match (like_tokens (list_ascii_of_string pattern))
             (list_ascii_of_string column).

(** Insertion of a row by ascending id. *)
Fixpoint insert_by_id (c : Certificate.t) (sorted : list Certificate.t)
  : list Certificate.t :=
  match sorted with
  | [] => [c]
  | d :: rest =>
      if Z.leb (Certificate.id c) (Certificate.id d) then c :: d :: rest
      else d :: insert_by_id c rest
  end.

(** Modelled from the spec: [windowed_query] of [lemur.common.utils] is
    imported by the sources but is not among them.  The spec has the scan
    page through result windows of the query on the given column: every
    row of the query once, window after window, by ascending
    [Certificate.id]. *)
Definition windowed_query (q : list Certificate.t) : list Certificate.t :=
  fold_right insert_by_id [] q.

(** Truth value of the [exclude] argument: [None] and [[]] are falsy. *)
Definition exclude_given (exclude : option (list string)) : list string :=
  match exclude with
  | None => []
  | Some es => es
  end.

(** The conjunction of the [exclude_conditions] on one row, each being
    the negation of [Certificate.name.ilike] on [e] put between two [%]. *)
Definition exclude_conditions (es : list string) (c : Certificate.t) : bool :=
  forallb (fun e =>
    negb (ilike (Certificate.name c) (String.append "%" (String.append e "%")))) es.

(** The query [q] of [get_certificates]. *)
Definition get_certificates_query (now : Z) (table : list Certificate.t)
    (exclude : option (list string)) : list Certificate.t :=
  let max := now + timedelta_days 90 in
  let q :=
    List.filter (fun c =>
      Z.leb (Certificate.not_after c) max
      && Bool.eqb (Certificate.notify c) true
      && Bool.eqb (Certificate.expired c) false
      && Bool.eqb (Certificate.revoked c) false) table in
  if truthy_list (exclude_given exclude)
  then List.filter (exclude_conditions (exclude_given exclude)) q
  else q.

(** The loop of [get_certificates] over the rows, [certs] being the list
    built so far. *)
Fixpoint get_certificates_loop (now : Z) (rows certs : list Certificate.t)
  : result (list Certificate.t) :=
  match rows with
  | [] => Ok certs
  | c :: rest =>
      match needs_expiration_notification now c with
      | Raise e => Raise e
      | Ok due =>
          if truthy_list due
          then get_certificates_loop now rest (certs ++ [c])
          else get_certificates_loop now rest certs
      end
  end.

Definition get_certificates (now : Z) (table : list Certificate.t)
    (exclude : option (list string)) : result (list Certificate.t) :=
  get_certificates_loop now
    (windowed_query (get_certificates_query now table exclude)) [].

(** Application configuration; [None] is a key that is not set. *)
Module Config.
Record t := mk {
  LEMUR_SECURITY_TEAM_EMAIL : option (list string);
  LEMUR_AUTHORITY_CERT_EXPIRATION_EMAIL_INTERVALS : option (list Z);
  LEMUR_DEFAULT_NOTIFICATION_PLUGIN : option string }.
End Config.

(** [config.get(key, default)] *)
Definition config_get {A} (v : option A) (default : A) : A :=
  match v with
  | Some a => a
  | None => default
  end.

(** [max(l)], which raises on the empty list. *)
Definition py_max (l : list Z) : result Z :=
  match l with
  | [] => Raise (ValueError "max() arg is an empty sequence")
  | x :: rest => Ok (fold_left Z.max rest x)
  end.

(** [d in l] *)
Definition py_in (d : Z) (l : list Z) : bool := existsb (Z.eqb d) l.

Definition is_none {A} (o : option A) : bool :=
  match o with None => true | Some _ => false end.

Definition authority_expiration_intervals (config : Config.t) : list Z :=
  config_get (Config.LEMUR_AUTHORITY_CERT_EXPIRATION_EMAIL_INTERVALS config)
             [365; 180].

(** The query [q] of [get_expiring_authority_certificates]. *)
Definition authority_query (max_not_after : Z) (table : list Certificate.t)
  : list Certificate.t :=
  List.filter (fun c =>
    Z.ltb (Certificate.not_after c) max_not_after
    && Bool.eqb (Certificate.notify c) true
    && Bool.eqb (Certificate.expired c) false
    && Bool.eqb (Certificate.revoked c) false
    && negb (is_none (Certificate.root_authority_id c))
    && is_none (Certificate.authority_id c)) table.

(** The sum [now + timedelta(days=max(...) + 1)] is taken in [Z]; Python
    raises [OverflowError] on a span or an instant it does not hold
    ([no_overflow]). *)
Definition get_expiring_authority_certificates (config : Config.t) (now : Z)
    (table : list Certificate.t) : result (list Certificate.t) :=
  let intervals := authority_expiration_intervals config in
  match py_max intervals with
  | Raise e => Raise e
  | Ok m =>
      let max_not_after := now + timedelta_days (m + 1) in
      let q := authority_query max_not_after table in
      Ok (List.filter
            (fun c => py_in (days_between (Certificate.not_after c) now) intervals)
            (windowed_query q))
  end.

(** [itertools.groupby]: the runs of consecutive elements of equal key. *)
Fixpoint groupby {A K : Type} (eqb : K -> K -> bool) (key : A -> K) (l : list A)
  : list (K * list A) :=
  match l with
  | [] => []
  | x :: rest =>
      match groupby eqb key rest with
      | (k, g) :: groups =>
          if eqb (key x) k then (k, x :: g) :: groups
          else (key x, [x]) :: (k, g) :: groups
      | [] => [(key x, [x])]
      end
  end.

(** The inner loop of [get_eligible_authority_certificates]:
    [certificates[owner][interval] = list(interval_certs)]. *)
Definition group_by_interval (now : Z) (owner_certs : list Certificate.t)
    (by_interval : gmap Z (list Certificate.t)) : gmap Z (list Certificate.t) :=
  fold_left
    (fun d '(interval, interval_certs) => <[interval := interval_certs]> d)
    (groupby Z.eqb (fun x => days_between (Certificate.not_after x) now) owner_certs)
    by_interval.

(** The outer loop over the owners' runs; [certificates[owner]] of a
    [defaultdict(dict)] is the empty dict when the owner is new. *)
Definition group_by_owner (now : Z) (all_certs : list Certificate.t)
  : gmap string (gmap Z (list Certificate.t)) :=
  fold_left
    (fun certificates '(owner, owner_certs) =>
       <[owner := group_by_interval now owner_certs
                    (default ∅ (certificates !! owner))]> certificates)
    (groupby String.eqb Certificate.owner all_certs)
    ∅.

Definition get_eligible_authority_certificates (config : Config.t) (now : Z)
    (table : list Certificate.t)
  : result (gmap string (gmap Z (list Certificate.t))) :=
  match get_expiring_authority_certificates config now table with
  | Raise e => Raise e
  | Ok all_certs => Ok (group_by_owner now all_certs)
  end.

(** ** Effects: a state-and-error monad *)

Section Monad.
Context {S : Type}.

Definition M (A : Type) : Type := S -> result A * S.

Definition ret {A} (a : A) : M A := fun s => (Ok a, s).

Definition raise {A} (e : exn) : M A := fun s => (Raise e, s).

Definition bind {A B} (m : M A) (k : A -> M B) : M B :=
  fun s =>
    match m s with
    | (Ok a, s') => k a s'
    | (Raise e, s') => (Raise e, s')
    end.

Definition lift {A} (r : result A) : M A := fun s => (r, s).

(** [try: body / except Exception: handler] *)
Definition try_except {A} (body : M A) (handler : exn -> M A) : M A :=
  fun s =>
    match body s with
    | (Ok a, s') => (Ok a, s')
    | (Raise e, s') => handler e s'
    end.
End Monad.
Arguments M : clear implicits.

Notation "'let*' x ':=' m 'in' k" := (bind m (fun x => k))
  (at level 10, x pattern, m at level 100, k at level 200).

(** A [for] loop whose body may [return]: [Some v] leaves the function
    with [v], [None] goes on with the next element; the loop that runs
    out gives [None]. *)
Fixpoint for_loop {S A R : Type} (l : list A) (body : A -> M S (option R))
  : M S (option R) :=
  match l with
  | [] => ret None
  | x :: rest =>
      let* r := body x in
      match r with
      | Some v => ret (Some v)
      | None => for_loop rest body
      end
  end.

(** ** Dispatch *)

(** What a dispatch function hands back: [True], or the [None] of a
    function that runs off its end or [return]s bare. *)
Inductive retval := RTrue | RNone.

Definition truthy (r : retval) : bool :=
  match r with RTrue => true | RNone => false end.

Definition trace := list event.

Definition emit (ev : event) : M trace unit := fun t => (Ok tt, t ++ [ev]).

(** [plugin.send(notification_type, data, targets, options)] *)
Definition plugin_send (p : Plugin.t) (notification_type : string) (data : message)
    (targets : list string) (options : option (list PluginOption.t)) : M trace unit :=
  fun t =>
    let t' :=
      t ++ [PluginSend (Plugin.slug p) notification_type data targets options] in
    match Plugin.send p t notification_type data targets options with
    | None => (Ok tt, t')
    | Some e => (Raise e, t')
    end.

(** Modelled from the spec: the plugin registry [lemur.plugins.plugins]
    is imported by the sources but is not among them.  The spec has a
    plugin registry resolved by string slug: [plugins.get] is a function
    from slugs to plugins. *)
Module App.
Record t := mk {
  config : Config.t;
  plugins_get : string -> Plugin.t }.
End App.

Definition status_retval (status : metric_status) : retval :=
  if metric_status_eqb status SUCCESS_METRIC_STATUS then RTrue else RNone.

Definition send_default_notification (app : App.t) (notification_type : string)
    (data : message) (targets : list string)
    (notification_options : option (list PluginOption.t)) : M trace retval :=
  let function := "lemur.notifications.messaging.send_default_notification" in
  let notification_plugin :=
    App.plugins_get app
      (config_get (Config.LEMUR_DEFAULT_NOTIFICATION_PLUGIN (App.config app))
                  "email-notification") in
  let slug := Plugin.slug notification_plugin in
  let* status :=
    try_except
      (let* _ := emit (LoggerDebug function notification_type slug) in
       let* _ := plugin_send notification_plugin notification_type data targets
                   notification_options in
       ret SUCCESS_METRIC_STATUS)
      (fun e =>
         let* _ := emit (LoggerError function notification_type slug) in
         let* _ := emit (SentryCapture e) in
         ret FAILURE_METRIC_STATUS) in
  let* _ := emit (MetricsSend status notification_type slug) in
  ret (status_retval status).

Definition send_plugin_notification (app : App.t) (event_type : string)
    (data : message) (recipients : list string) (notification : Notification.t)
  : M trace retval :=
  let function := "lemur.notifications.messaging.send_plugin_notification" in
  let plugin := Notification.plugin notification in
  let slug := Plugin.slug plugin in
  let* status :=
    try_except
      (let* _ := emit (LoggerDebug function event_type slug) in
       let* _ := plugin_send plugin event_type data recipients
                   (Some (Notification.options notification)) in
       if negb (String.eqb slug "email-notification") then
         let* sent := send_default_notification app event_type data recipients
                        (Some (Notification.options notification)) in
         if truthy sent then ret SUCCESS_METRIC_STATUS
         else ret FAILURE_METRIC_STATUS
       else ret SUCCESS_METRIC_STATUS)
      (fun e =>
         let* _ := emit (LoggerError function event_type slug) in
         let* _ := emit (SentryCapture e) in
         ret FAILURE_METRIC_STATUS) in
  let* _ := emit (MetricsSend status event_type slug) in
  ret (status_retval status).

(** Modelled from the spec: the output schemas of
    [lemur.certificates.schemas] and [lemur.pending_certificates.schemas]
    are imported by the sources but are not among them.  The spec gives
    a certificate a name and an owner; the dump carries them over. *)
Definition certificate_notification_output_schema_dump (c : Certificate.t)
  : CertData.t :=
  CertData.mk (Certificate.name c) (Certificate.owner c) None.

Definition set_security_email (data : CertData.t) (v : option (list string))
  : CertData.t :=
  CertData.mk (CertData.name data) (CertData.owner data) v.

Definition or_none (r : option retval) : retval :=
  match r with Some v => v | None => RNone end.

(** A notification that is active and configured. *)
Definition active_configured (notification : Notification.t) : bool :=
  Notification.active notification && truthy_list (Notification.options notification).

Definition send_plugin_notification_with_email_fallback (app : App.t)
    (data : CertData.t) (notifications : list Notification.t)
    (notification_type : string) : M trace retval :=
  let active_notifications := List.filter active_configured notifications in
  let data :=
    set_security_email data (Config.LEMUR_SECURITY_TEAM_EMAIL (App.config app)) in
  if negb (truthy_list active_notifications) then
    match CertData.security_email data with
    | None => raise (TypeError (concat_error "list" "NoneType"))
    | Some security_email =>
        let email_recipients := [CertData.owner data] ++ security_email in
        send_default_notification app notification_type (MsgOne data)
          email_recipients None
    end
  else
    let* r :=
      for_loop active_notifications (fun notification =>
        let* email_recipients :=
          lift (Plugin.get_recipients (Notification.plugin notification)
                  (Notification.options notification)
                  (CertData.security_email data)) in
        let* sent := send_plugin_notification app notification_type (MsgOne data)
                       email_recipients notification in
        ret (Some sent)) in
    ret (or_none r).

Definition send_revocation_notification (app : App.t) (certificate : Certificate.t)
  : M trace retval :=
  if negb (Certificate.notify certificate) then ret RNone
  else
    let data := certificate_notification_output_schema_dump certificate in
    send_plugin_notification_with_email_fallback app data
      (Certificate.notifications certificate) "revocation".

(** A notification [send_rotation_notification] dispatches. *)
Definition rotation_enabled (notification : Notification.t) : bool :=
  Notification.active notification
  && truthy_list (Notification.options notification)
  && Notification.enable_rotation notification.

Definition send_rotation_notification (app : App.t) (certificate : Certificate.t)
  : M trace retval :=
  if negb (Certificate.notify certificate) then ret RNone
  else
    let data := certificate_notification_output_schema_dump certificate in
    let data :=
      set_security_email data (Config.LEMUR_SECURITY_TEAM_EMAIL (App.config app)) in
    let* r :=
      for_loop (Certificate.notifications certificate) (fun notification =>
        if rotation_enabled notification then
          let* email_recipients :=
            lift (Plugin.get_recipients (Notification.plugin notification)
                    (Notification.options notification) (Some [])) in
          let* sent := send_plugin_notification app "rotation" (MsgOne data)
                         email_recipients notification in
          ret (Some sent)
        else ret None) in
    ret (or_none r).

Definition send_rotation_failure_notification (app : App.t) (now : Z)
    (certificate : Certificate.t) : M trace retval :=
  if negb (Certificate.notify certificate) then ret RNone
  else if negb (Z.eqb (days_between (Certificate.not_after certificate) now) 7)
  then ret RNone
  else
    let data := certificate_notification_output_schema_dump certificate in
    send_plugin_notification_with_email_fallback app data
      (Certificate.notifications certificate) "failed".

Module PendingCertificate.
Record t := mk {
  name : string;
  owner : string;
  notify : bool;
  notifications : list Notification.t }.
End PendingCertificate.

Definition pending_certificate_output_schema_dump (p : PendingCertificate.t)
  : CertData.t :=
  CertData.mk (PendingCertificate.name p) (PendingCertificate.owner p) None.

Definition send_pending_failure_notification (app : App.t)
    (pending_cert : PendingCertificate.t) : M trace retval :=
  if negb (PendingCertificate.notify pending_cert) then ret RNone
  else
    let data := pending_certificate_output_schema_dump pending_cert in
    send_plugin_notification_with_email_fallback app data
      (PendingCertificate.notifications pending_cert) "failed".

(** ** The expiration scan *)

(** [certificates[notification].append(certificate)] on a
    [defaultdict(list)]: a dict keeps its keys in the order they came in;
    a notification is the same key when it is the same row. *)
Fixpoint dict_append (notification : Notification.t) (certificate : Certificate.t)
    (d : list (Notification.t * list Certificate.t))
  : list (Notification.t * list Certificate.t) :=
  match d with
  | [] => [(notification, [certificate])]
  | (k, v) :: rest =>
      if Z.eqb (Notification.id k) (Notification.id notification)
      then (k, v ++ [certificate]) :: rest
      else (k, v) :: dict_append notification certificate rest
  end.

Fixpoint get_eligible_loop (now : Z) (certs : list Certificate.t)
    (certificates : list (Notification.t * list Certificate.t))
  : result (list (Notification.t * list Certificate.t)) :=
  match certs with
  | [] => Ok certificates
  | certificate :: rest =>
      match needs_expiration_notification now certificate with
      | Raise e => Raise e
      | Ok due =>
          get_eligible_loop now rest
            (fold_left (fun d notification => dict_append notification certificate d)
               due certificates)
      end
  end.

Definition get_eligible_certificates (now : Z) (table : list Certificate.t)
    (exclude : option (list string))
  : result (list (Notification.t * list Certificate.t)) :=
  match get_certificates now table exclude with
  | Raise e => Raise e
  | Ok certs => get_eligible_loop now certs []
  end.

Fixpoint send_expiration_loop (app : App.t)
    (items : list (Notification.t * list Certificate.t)) (success failure : Z)
  : M trace (Z * Z) :=
  match items with
  | [] => ret (success, failure)
  | (notification, certificates) :: rest =>
      let notification_data :=
        map certificate_notification_output_schema_dump certificates in
      let* email_recipients :=
        lift (Plugin.get_recipients (Notification.plugin notification)
                (Notification.options notification) (Some [])) in
      let* sent := send_plugin_notification app "expiration"
                     (MsgMany notification_data) email_recipients notification in
      if truthy sent
      then send_expiration_loop app rest
             (success + Z.of_nat (length email_recipients)) failure
      else send_expiration_loop app rest
             success (failure + Z.of_nat (length email_recipients))
  end.

Definition send_expiration_notifications (app : App.t) (now : Z)
    (table : list Certificate.t) (exclude : option (list string))
  : M trace (Z * Z) :=
  let* items := lift (get_eligible_certificates now table exclude) in
  send_expiration_loop app items 0 0.

(** ** Rotation of an endpoint's certificate: [lemur.deployment.service] *)

Module Deployment.

(** Python objects are handled by reference. *)
Abbreviation ref := Z.

Module SourcePlugin.
(** [update_endpoint] acts on the outside, the machine that serves
    the endpoint; it returns ([None]) or raises ([Some e]). *)
Record t := mk {
  update_endpoint : string -> Certificate.t -> option exn }.
End SourcePlugin.

Module Endpoint.
Record t := mk {
  name : string;
  certificate : option ref;
  source : SourcePlugin.t }.
End Endpoint.

(** The objects in memory, the rows the database holds, and the calls
    made to source plugins. *)
Module Store.
Record t := mk {
  endpoints : ref -> Endpoint.t;
  certificates : ref -> Certificate.t;
  db_endpoints : ref -> option Endpoint.t;
  db_certificates : ref -> option Certificate.t;
  updated : list (string * Certificate.t) }.
End Store.

Definition set_certificate (e : Endpoint.t) (c : option ref) : Endpoint.t :=
  Endpoint.mk (Endpoint.name e) c (Endpoint.source e).

Definition set_notify (c : Certificate.t) (b : bool) : Certificate.t :=
  Certificate.mk (Certificate.id c) (Certificate.name c) (Certificate.owner c)
    (Certificate.not_after c) b (Certificate.expired c) (Certificate.revoked c)
    (Certificate.root_authority_id c) (Certificate.authority_id c)
    (Certificate.notifications c).

(** [endpoint.source.plugin.update_endpoint(endpoint, new_cert)] *)
Definition update_endpoint (endpoint new_cert : ref) : M Store.t unit :=
  fun s =>
    let e := Store.endpoints s endpoint in
    let c := Store.certificates s new_cert in
    let s' :=
      Store.mk (Store.endpoints s) (Store.certificates s) (Store.db_endpoints s)
        (Store.db_certificates s) (Store.updated s ++ [(Endpoint.name e, c)]) in
    match SourcePlugin.update_endpoint (Endpoint.source e) (Endpoint.name e) c with
    | None => (Ok tt, s')
    | Some ex => (Raise ex, s')
    end.

(** [endpoint.certificate = new_cert] *)
Definition assign_certificate (endpoint new_cert : ref) : M Store.t unit :=
  fun s =>
    (Ok tt,
     Store.mk
       (<[endpoint := set_certificate (Store.endpoints s endpoint) (Some new_cert)]>
          (Store.endpoints s))
       (Store.certificates s) (Store.db_endpoints s) (Store.db_certificates s)
       (Store.updated s)).

(** [old_cert.notify = False], which fails on [None]. *)
Definition assign_notify (old_cert : option ref) (b : bool) : M Store.t unit :=
  match old_cert with
  | None => raise (AttributeError "'NoneType' object has no attribute 'notify'")
  | Some r =>
      fun s =>
        (Ok tt,
         Store.mk (Store.endpoints s)
           (<[r := set_notify (Store.certificates s r) b]> (Store.certificates s))
           (Store.db_endpoints s) (Store.db_certificates s) (Store.updated s))
  end.

(** Modelled from the spec: [lemur.database] is imported by the source
    but is not among the sources.  The spec has the code produce
    database mutations: [database.update(model)] writes the object as
    it is now to its row. *)
Definition database_update_endpoint (endpoint : ref) : M Store.t unit :=
  fun s =>
    (Ok tt,
     Store.mk (Store.endpoints s) (Store.certificates s)
       (<[endpoint := Some (Store.endpoints s endpoint)]> (Store.db_endpoints s))
       (Store.db_certificates s) (Store.updated s)).

Definition database_update_certificate (cert : option ref) : M Store.t unit :=
  match cert with
  | None => ret tt
  | Some r =>
      fun s =>
        (Ok tt,
         Store.mk (Store.endpoints s) (Store.certificates s) (Store.db_endpoints s)
           (<[r := Some (Store.certificates s r)]> (Store.db_certificates s))
           (Store.updated s))
  end.

Definition rotate_certificate (endpoint new_cert : ref) : M Store.t unit :=
  let* old_cert :=
    (fun s => (Ok (Endpoint.certificate (Store.endpoints s endpoint)), s)) in
  let* _ := update_endpoint endpoint new_cert in
  let* _ := assign_certificate endpoint new_cert in
  let* _ := database_update_endpoint endpoint in
  let* _ := assign_notify old_cert false in
  database_update_certificate old_cert.

End Deployment.

(** ** Vocabulary of the properties *)

(** The factor of a unit: 1 for days, 7 for weeks, 30 for months. *)
Definition unit_factor (unit : pyval) : option Z :=
  if py_eq_str unit "days" then Some 1
  else if py_eq_str unit "weeks" then Some 7
  else if py_eq_str unit "months" then Some 30
  else None.

Definition interval_of (n : Notification.t) : pyval :=
  get_plugin_option "interval" (Notification.options n).

Definition unit_of (n : Notification.t) : pyval :=
  get_plugin_option "unit" (Notification.options n).

(** A notification triggers at [days] remaining: it is active, it has
    options, and [days] is its interval times the factor of its unit. *)
Definition triggers (days : Z) (n : Notification.t) : Prop :=
  Notification.active n = true /\
  Notification.options n <> [] /\
  exists interval factor,
    interval_of n = PyInt interval /\
    unit_factor (unit_of n) = Some factor /\
    days = interval * factor.

(** A notification the loop gets through: its unit is one of the three,
    and an interval that is missing is not multiplied. *)
Definition well_configured (n : Notification.t) : Prop :=
  active_configured n = true ->
  exists factor,
    unit_factor (unit_of n) = Some factor /\
    (interval_of n = PyNone -> factor = 1).

Definition passes (n : Notification.t) : bool :=
  negb (active_configured n) || is_ok (apply_unit (interval_of n) (unit_of n)).

Definition matches (days : Z) (n : Notification.t) : bool :=
  active_configured n
  && match apply_unit (interval_of n) (unit_of n) with
     | Ok interval => py_eq_int days interval
     | Raise _ => false
     end.

(** The days a certificate has left at [now]. *)
Definition days_remaining (now : Z) (c : Certificate.t) : Z :=
  days_between (Certificate.not_after c) now.

(** A row the scan keeps: its check returns a non-empty list. *)
Definition has_due (now : Z) (c : Certificate.t) : bool :=
  match needs_expiration_notification now c with
  | Ok due => truthy_list due
  | Raise _ => false
  end.

Definition check_returns (now : Z) (c : Certificate.t) : bool :=
  is_ok (needs_expiration_notification now c).

(** Containment of one string in another with the case folded, the
    reading of an [exclude] entry as a substring; the case is that of
    the ASCII letters. *)
Fixpoint prefix_ci (e s : list ascii) : bool :=
  match e, s with
  | [], _ => true
  | _ :: _, [] => false
  | a :: e', b :: s' => Ascii.eqb (lower a) (lower b) && prefix_ci e' s'
  end.

Fixpoint contains_ci_list (e s : list ascii) : bool :=
  prefix_ci e s
  || match s with
     | [] => false
     | _ :: s' => contains_ci_list e s'
     end.

Definition contains_ci (name e : string) : bool :=
  contains_ci_list (list_ascii_of_string e) (list_ascii_of_string name).

(** A string [LIKE] reads character by character: none of [%], [_] and
    the backslash occurs in it. *)
Definition like_literal_char (c : ascii) : bool :=
  negb (Ascii.eqb c "\") && negb (Ascii.eqb c "%") && negb (Ascii.eqb c "_").

Definition like_literal (e : string) : bool :=
  forallb like_literal_char (list_ascii_of_string e).

(** Eligibility as the claim words it, [exclude] entries being
    substrings. *)
Definition eligible_by_substring (now : Z) (exclude : option (list string))
    (c : Certificate.t) : Prop :=
  Certificate.revoked c = false /\
  Certificate.expired c = false /\
  Certificate.notify c = true /\
  Certificate.not_after c <= now + timedelta_days 90 /\
  (forall e, In e (exclude_given exclude) -> contains_ci (Certificate.name c) e = false) /\
  exists due, needs_expiration_notification now c = Ok due /\ due <> [].

(** The claim on [get_certificates] for the given [exclude]. *)
Definition returns_exactly_eligible (exclude : option (list string)) : Prop :=
  forall now table certs,
    get_certificates now table exclude = Ok certs ->
    forall c, In c certs <-> In c table /\ eligible_by_substring now exclude c.

(** An authority certificate the scan may report. *)
Definition eligible_authority (c : Certificate.t) : Prop :=
  Certificate.notify c = true /\
  Certificate.expired c = false /\
  Certificate.revoked c = false /\
  Certificate.root_authority_id c <> None /\
  Certificate.authority_id c = None.

(** ** Sample data *)

(** A plugin after the test plugin of the sources: its [send] returns at
    once; it hands back the additional recipients it is given. *)
Definition sample_plugin (slug : string) : Plugin.t :=
  Plugin.mk slug
    (fun _ _ _ _ _ => None)
    (fun _ additional =>
       match additional with
       | Some l => Ok l
       | None => Raise (TypeError (concat_error "list" "NoneType"))
       end).

(** A plugin whose [send] always raises. *)
Definition failing_plugin (slug : string) : Plugin.t :=
  Plugin.mk slug
    (fun _ _ _ _ _ => Some (PluginFailure "connection refused"))
    (fun _ additional =>
       match additional with
       | Some l => Ok l
       | None => Raise (TypeError (concat_error "list" "NoneType"))
       end).

Definition sample_options (interval : Z) (unit : string) : list PluginOption.t :=
  [PluginOption.mk "interval" (PyInt interval);
   PluginOption.mk "unit" (PyStr unit);
   PluginOption.mk "recipients" (PyStr "ops@example.com")].

Definition sample_notification (id interval : Z) (unit : string) (plugin : Plugin.t)
  : Notification.t :=
  Notification.mk id "DEFAULT_ops" true (sample_options interval unit) plugin false.

Definition sample_certificate (id : Z) (name owner : string) (not_after : Z)
    (notifications : list Notification.t) : Certificate.t :=
  Certificate.mk id name owner not_after true false false None None notifications.

(** Ten days ahead of instant 0, with one notification at ten days. *)
Definition cert_abc : Certificate.t :=
  sample_certificate 1 "abc" "owner@example.com" (timedelta_days 10 + 3600000000)
    [sample_notification 1 10 "days" (sample_plugin "email-notification")].

(** Fourteen days ahead of instant 0, with one notification at two weeks. *)
Definition cert_test : Certificate.t :=
  sample_certificate 2 "MyTestCert" "owner@example.com" (timedelta_days 14)
    [sample_notification 2 2 "weeks" (sample_plugin "email-notification")].

(** Authority certificates 365 days ahead of instant 0: two of one
    owner, and between them, by id, one of another owner. *)
Definition sample_authority (id : Z) (name owner : string) : Certificate.t :=
  Certificate.mk id name owner (timedelta_days 365 + 1) true false false
    (Some id) None [].

Definition ca_1 : Certificate.t := sample_authority 1 "root-1" "alice@example.com".
Definition ca_2 : Certificate.t := sample_authority 2 "root-2" "bob@example.com".
Definition ca_3 : Certificate.t := sample_authority 3 "root-3" "alice@example.com".

Definition default_config : Config.t := Config.mk (Some ["security@example.com"]) None None.

(** The plugin [send_default_notification] sends through. *)
Definition default_plugin (app : App.t) : Plugin.t :=
  App.plugins_get app
    (config_get (Config.LEMUR_DEFAULT_NOTIFICATION_PLUGIN (App.config app))
                "email-notification").

(** What the default plugin's [send] does when
    [send_default_notification] is entered at trace [t]. *)
Definition default_send_outcome (app : App.t) (notification_type : string)
    (data : message) (targets : list string)
    (options : option (list PluginOption.t)) (t : trace) : option exn :=
  Plugin.send (default_plugin app)
    (t ++ [LoggerDebug "lemur.notifications.messaging.send_default_notification"
             notification_type (Plugin.slug (default_plugin app))])
    notification_type data targets options.

(** What the notification's own plugin's [send] does when
    [send_plugin_notification] is entered at trace [t]. *)
Definition plugin_send_outcome (event_type : string) (data : message)
    (recipients : list string) (notification : Notification.t) (t : trace)
  : option exn :=
  Plugin.send (Notification.plugin notification)
    (t ++ [LoggerDebug "lemur.notifications.messaging.send_plugin_notification"
             event_type (Plugin.slug (Notification.plugin notification))])
    event_type data recipients (Some (Notification.options notification)).

(** The trace once the notification's own plugin has been sent to. *)
Definition after_plugin_send (event_type : string) (data : message)
    (recipients : list string) (notification : Notification.t) (t : trace) : trace :=
  (t ++ [LoggerDebug "lemur.notifications.messaging.send_plugin_notification"
           event_type (Plugin.slug (Notification.plugin notification))])
  ++ [PluginSend (Plugin.slug (Notification.plugin notification)) event_type data
        recipients (Some (Notification.options notification))].

Definition is_plugin_send (ev : event) : bool :=
  match ev with
  | PluginSend _ _ _ _ _ => true
  | _ => false
  end.

(** The sends a trace records, in order. *)
Definition sends (t : trace) : list event := List.filter is_plugin_send t.

(** Dispatching one notification: its recipients, then
    [send_plugin_notification]. *)
Definition dispatch_one (app : App.t) (notification_type : string)
    (data : CertData.t) (additional : option (list string))
    (notification : Notification.t) : M trace retval :=
  let* email_recipients :=
    lift (Plugin.get_recipients (Notification.plugin notification)
            (Notification.options notification) additional) in
  send_plugin_notification app notification_type (MsgOne data)
    email_recipients notification.

(** An endpoint that serves certificate 1, in a store where every
    reference holds an object and nothing has been written yet. *)
Definition sample_source : Deployment.SourcePlugin.t :=
  Deployment.SourcePlugin.mk (fun _ _ => None).

Definition sample_store : Deployment.Store.t :=
  Deployment.Store.mk
    (fun r => Deployment.Endpoint.mk "elb-frontend" (Some 1) sample_source)
    (fun r => sample_certificate r "cert" "owner@example.com" (timedelta_days 30) [])
    (fun _ => None)
    (fun _ => None)
    [].

Definition sample_app : App.t :=
  App.mk default_config (fun slug => sample_plugin slug).

(** A certificate with two notifications that qualify, rotation included,
    the first through a plugin that is not the email plugin. *)
Definition slack_notification : Notification.t :=
  Notification.mk 10 "slack" true (sample_options 30 "days")
    (sample_plugin "slack-notification") true.

Definition email_notification : Notification.t :=
  Notification.mk 11 "email" true (sample_options 10 "days")
    (sample_plugin "email-notification") true.

Definition cert_two : Certificate.t :=
  sample_certificate 3 "two" "owner@example.com" (timedelta_days 30)
    [slack_notification; email_notification].

(** A certificate whose one notification has a unit that is none of the
    three. *)
Definition cert_fortnights : Certificate.t :=
  sample_certificate 4 "fortnights" "owner@example.com" (timedelta_days 28)
    [sample_notification 12 2 "fortnights" (sample_plugin "email-notification")].

(** A certificate flagged revoked, otherwise as [cert_abc]. *)
Definition cert_revoked : Certificate.t :=
  Certificate.mk 5 "revoked" "owner@example.com" (timedelta_days 10) true false true
    None None
    [sample_notification 1 10 "days" (sample_plugin "email-notification")].

(** A certificate without notifications. *)
Definition cert_bare : Certificate.t :=
  sample_certificate 6 "bare" "owner@example.com" (timedelta_days 30) [].

Definition pending_bare : PendingCertificate.t :=
  PendingCertificate.mk "pending" "owner@example.com" true [].

Definition two_weeks_notification : Notification.t :=
  sample_notification 2 2 "weeks" (sample_plugin "email-notification").

Definition fortnights_notification : Notification.t :=
  sample_notification 12 2 "fortnights" (sample_plugin "email-notification").

(** An application whose default plugin fails on every send. *)
Definition failing_app : App.t :=
  App.mk default_config (fun slug => failing_plugin slug).

(** ** Vocabulary of the further properties *)

(** Certificate [c] is filed under the notification of id [i] in the
    dict [d]. *)
Definition filed_under (d : list (Notification.t * list Certificate.t))
    (i : Z) (c : Certificate.t) : Prop :=
  exists k v, In (k, v) d /\ Notification.id k = i /\ In c v.

(** The ids of the keys of a dict, in order. *)
Definition dict_keys (d : list (Notification.t * list Certificate.t)) : list Z :=
  map (fun kv => Notification.id (fst kv)) d.

(** Notification [i] is due for certificate [c] at [now]. *)
Definition due_for (now : Z) (c : Certificate.t) (i : Z) : Prop :=
  exists due n,
    needs_expiration_notification now c = Ok due /\
    In n due /\ Notification.id n = i.

(** The recipients [send_expiration_notifications] asks the plugin of a
    notification for. *)
Definition recipients_for (n : Notification.t) : result (list string) :=
  Plugin.get_recipients (Notification.plugin n) (Notification.options n) (Some []).

(** The recipients of all the groups together. *)
Fixpoint total_recipients (items : list (Notification.t * list Certificate.t)) : Z :=
  match items with
  | [] => 0
  | (n, _) :: rest =>
      match recipients_for n with
      | Ok r => Z.of_nat (length r)
      | Raise _ => 0
      end + total_recipients rest
  end.

(** A list of certificates that may stand under [owner] and [interval]
    in the grouping of [all]: it is not empty, and each of its
    certificates is one of [all], has that owner and that many days
    left. *)
Definition well_filed (now : Z) (all : list Certificate.t) (owner : string)
    (interval : Z) (certs : list Certificate.t) : Prop :=
  certs <> [] /\
  forall c, In c certs ->
    In c all /\ Certificate.owner c = owner /\ days_remaining now c = interval.

(** The grouping has the key [interval] under the key [owner]. *)
Definition has_key (groups : gmap string (gmap Z (list Certificate.t)))
    (owner : string) (interval : Z) : Prop :=
  exists by_interval,
    groups !! owner = Some by_interval /\ is_Some (by_interval !! interval).

(** ** Strings, as Python handles them *)

(** ASCII upper case. *)
Definition upper (c : ascii) : ascii :=
  let n := nat_of_ascii c in
  if (Nat.leb 97 n && Nat.leb n 122)%bool then ascii_of_nat (n - 32) else c.

(** [s.lower()] *)
Fixpoint str_lower (s : string) : string :=
  match s with
  | EmptyString => EmptyString
  | String c rest => String (lower c) (str_lower rest)
  end.

(** [s.capitalize()]: the first character in upper case, the rest in
    lower case. *)
Definition capitalize (s : string) : string :=
  match s with
  | EmptyString => EmptyString
  | String c rest => String (upper c) (str_lower rest)
  end.

(** [s.split(sep)] for a separator of one character: the pieces between
    the separators, empty ones included; the empty string gives one
    empty piece. *)
Fixpoint split_on (sep : ascii) (s : string) : list string :=
  match s with
  | EmptyString => [EmptyString]
  | String c rest =>
      if Ascii.eqb c sep then EmptyString :: split_on sep rest
      else
        match split_on sep rest with
        | piece :: pieces => String c piece :: pieces
        | [] => [String c EmptyString]
        end
  end.

(** [sep.join(l)] *)
Fixpoint join (sep : string) (l : list string) : string :=
  match l with
  | [] => EmptyString
  | x :: rest =>
      match rest with
      | [] => x
      | _ :: _ => String.append x (String.append sep (join sep rest))
      end
  end.

(** Truth value of an option's value: [None], [0] and the empty string
    are falsy. *)
Definition py_truthy (v : pyval) : bool :=
  match v with
  | PyNone => false
  | PyInt z => negb (Z.eqb z 0)
  | PyStr s => negb (String.eqb s EmptyString)
  end.

(** ** The test notification plugin: [lemur.tests.plugins.notification_plugin] *)

(** [list(set(l))]: the elements of [l] once each, in an order that is
    the set's own. *)
Definition list_of_set (l : list string) : list string :=
  elements (list_to_set l : gset string).

(** The [TypeError] of [v + additional] for a [v] that is not a list. *)
Definition py_add_error (v : pyval) (additional : option (list string)) : exn :=
  match v, additional with
  | PyNone, Some _ =>
      TypeError "unsupported operand type(s) for +: 'NoneType' and 'list'"
  | PyNone, None =>
      TypeError "unsupported operand type(s) for +: 'NoneType' and 'NoneType'"
  | PyInt _, Some _ =>
      TypeError "unsupported operand type(s) for +: 'int' and 'list'"
  | PyInt _, None =>
      TypeError "unsupported operand type(s) for +: 'int' and 'NoneType'"
  | PyStr _, Some _ => TypeError (concat_error "str" "list")
  | PyStr _, None => TypeError (concat_error "str" "NoneType")
  end.

(** A string without the separator. *)
Definition free_of (sep : ascii) (s : string) : Prop :=
  forall c, In c (list_ascii_of_string s) -> c <> sep.

Definition TestNotificationPlugin_get_recipients (options : list PluginOption.t)
    (additional_recipients : option (list string)) : result (list string) :=
  let notification_recipients := get_plugin_option "recipients" options in
  if py_truthy notification_recipients then
    match notification_recipients with
    | PyStr s =>
        let notification_recipients := split_on "," s in
        match additional_recipients with
        | Some additional => Ok (list_of_set (notification_recipients ++ additional))
        | None =>
            Raise (TypeError (concat_error "list" "NoneType"))
        end
    | _ => Raise (AttributeError "'int' object has no attribute 'split'")
    end
  else
    Raise (py_add_error notification_recipients additional_recipients).

(** The class [TestNotificationPlugin]: its [send] returns at once. *)
Definition TestNotificationPlugin : Plugin.t :=
  Plugin.mk "test-notification"
    (fun _ _ _ _ _ => None)
    TestNotificationPlugin_get_recipients.

(** ** The email plugin: [lemur.plugins.lemur_email.plugin] *)

Module EmailPlugin.

(** The configuration keys the plugin reads; [None] is a key that is
    not set. *)
Module Config.
Record t := mk {
  LEMUR_EMAIL_SENDER : option string;
  LEMUR_SES_REGION : option string;
  LEMUR_SES_SOURCE_ARN : option string;
  LEMUR_EMAIL : option string;
  LEMUR_HOSTNAME : option string }.
End Config.

(** What the plugin does to the outside: the log line, the call
    [client.send_email] with the arguments it is given ([source_arn]
    being [None] when the key [SourceArn] is left out), and the call
    [smtp_mail.send] with the message as built. *)
Inductive event :=
| LoggerInfo (targets : list string)
| SesSendEmail (region_name : string) (source : option string)
               (to_addresses : list string) (subject : string) (html : string)
               (source_arn : option string)
| SmtpSend (subject : string) (recipients : list string) (sender : option string)
           (body : string) (html : string).

(** The libraries behind the plugin: the template environment, which
    renders or raises, and the two mail clients, which return ([None])
    or raise ([Some e]), given what happened before. *)
Module World.
Record t := mk {
  render : string -> option (list PluginOption.t) -> message -> option string ->
           result string;
  ses_send_email : list event -> event -> option exn;
  smtp_send : list event -> event -> option exn }.
End World.

(** A call to a mail client. *)
Definition deliver (client : list event -> event -> option exn) (ev : event)
  : M (list event) unit :=
  fun t =>
    match client t ev with
    | None => (Ok tt, t ++ [ev])
    | Some e => (Raise e, t ++ [ev])
    end.

(** [render_html]: the template [template_name.html] rendered with the
    options, the certificates and the host name. *)
Definition render_html (world : World.t) (config : Config.t) (template_name : string)
    (options : option (list PluginOption.t)) (certificates : message)
  : result string :=
  World.render world (String.append template_name ".html") options certificates
    (Config.LEMUR_HOSTNAME config).

Definition send_via_smtp (world : World.t) (config : Config.t)
    (subject body : string) (targets : list string) : M (list event) unit :=
  deliver (World.smtp_send world)
    (SmtpSend subject targets (Config.LEMUR_EMAIL config) "" body).

(** Truth value of [source_arn]: [None] and the empty string are falsy. *)
Definition truthy_str (v : option string) : bool :=
  match v with
  | None => false
  | Some s => negb (String.eqb s "")
  end.

Definition send_via_ses (world : World.t) (config : Config.t)
    (subject body : string) (targets : list string) : M (list event) unit :=
  let ses_region := config_get (Config.LEMUR_SES_REGION config) "us-east-1" in
  let source_arn := Config.LEMUR_SES_SOURCE_ARN config in
  deliver (World.ses_send_email world)
    (SesSendEmail ses_region (Config.LEMUR_EMAIL config) targets subject body
       (if truthy_str source_arn then source_arn else None)).

(** What [__init__] does: it returns, or raises [InvalidConfiguration]
    with the message given. *)
Inductive init_outcome :=
| Initialized
| InvalidConfiguration (msg : string).

(** [EmailNotificationPlugin.__init__] *)
Definition init (config : Config.t) : init_outcome :=
  let sender := str_lower (config_get (Config.LEMUR_EMAIL_SENDER config) "ses") in
  if negb (String.eqb sender "ses" || String.eqb sender "smtp")
  then InvalidConfiguration "Email sender type {0} is not recognized."
  else Initialized.

(** [EmailNotificationPlugin.send] *)
Definition send (world : World.t) (config : Config.t) (notification_type : string)
    (message : message) (targets : list string)
    (options : option (list PluginOption.t)) : M (list event) unit :=
  let subject :=
    String.append "Lemur: "
      (String.append (capitalize notification_type) " Notification") in
  let* body := lift (render_html world config notification_type options message) in
  let s_type := str_lower (config_get (Config.LEMUR_EMAIL_SENDER config) "ses") in
  let* _ := (fun t => (Ok tt, t ++ [LoggerInfo targets])) in
  if String.eqb s_type "ses" then send_via_ses world config subject body targets
  else if String.eqb s_type "smtp" then send_via_smtp world config subject body targets
  else ret tt.

(** What [filter_recipients] hands back: the option's value as it is
    when it is falsy, the list of recipients otherwise. *)
Inductive filtered :=
| Unfiltered (v : pyval)
| Filtered (l : list string).

(** [i not in excluded_recipients] *)
Definition not_in (excluded : list string) (i : string) : bool :=
  negb (existsb (String.eqb i) excluded).

(** [EmailNotificationPlugin.filter_recipients] *)
Definition filter_recipients (options : list PluginOption.t)
    (excluded_recipients : list string) : result filtered :=
  let notification_recipients := get_plugin_option "recipients" options in
  if py_truthy notification_recipients then
    match notification_recipients with
    | PyStr s =>
        let notification_recipients := split_on "," s in
        Ok (Filtered (List.filter (not_in excluded_recipients) notification_recipients))
    | _ => Raise (AttributeError "'int' object has no attribute 'split'")
    end
  else Ok (Unfiltered notification_recipients).

(** The mail clients' calls in a trace. *)
Definition is_delivery (ev : event) : bool :=
  match ev with
  | LoggerInfo _ => false
  | SesSendEmail _ _ _ _ _ _ => true
  | SmtpSend _ _ _ _ _ => true
  end.

Definition deliveries (t : list event) : list event := List.filter is_delivery t.

Definition delivery_targets (ev : event) : list string :=
  match ev with
  | LoggerInfo targets => targets
  | SesSendEmail _ _ to_addresses _ _ _ => to_addresses
  | SmtpSend _ recipients _ _ _ => recipients
  end.

Definition delivery_subject (ev : event) : string :=
  match ev with
  | LoggerInfo _ => ""
  | SesSendEmail _ _ _ subject _ _ => subject
  | SmtpSend subject _ _ _ _ => subject
  end.

Definition delivery_html (ev : event) : string :=
  match ev with
  | LoggerInfo _ => ""
  | SesSendEmail _ _ _ _ html _ => html
  | SmtpSend _ _ _ _ html => html
  end.

End EmailPlugin.

(** ** Notifications as rows: [lemur.notifications.service] *)

Module NotificationService.

(** One option of a plugin, with all the keys of the dict. *)
Module OptionDict.
Record t := mk {
  name : string;
  type : string;
  required : bool;
  validation : string;
  helpMessage : string;
  value : pyval }.
End OptionDict.

(** The option as [get_plugin_option] reads it. *)
Definition as_plugin_option (o : OptionDict.t) : PluginOption.t :=
  PluginOption.mk (OptionDict.name o) (OptionDict.value o).

(** A row of the notification table; [active] is [None] as long as it
    is left to the column's default. *)
Module Row.
Record t := mk {
  id : Z;
  label : string;
  plugin_name : string;
  options : list OptionDict.t;
  expiration_intervals : list Z;
  description : string;
  active : option bool;
  certificates : list Z }.
End Row.

Module Config.
Record t := mk {
  LEMUR_DEFAULT_EXPIRATION_NOTIFICATION_INTERVALS : option (list Z);
  LEMUR_DEFAULT_NOTIFICATION_PLUGIN : option string }.
End Config.

(** Modelled from the spec: [lemur.database] is imported by the source
    but is not among the sources.  The spec has the lifecycle of a
    notification be plain CRUD against the relational store: a table of
    rows in the order they were created, with the id the next row
    gets. *)
Module Db.
Record t := mk {
  rows : list Row.t;
  next_id : Z }.
End Db.

(** [database.get(Notification, notification_id)] *)
Definition database_get (notification_id : Z) : M Db.t (option Row.t) :=
  fun db =>
    (Ok (List.find (fun r => Z.eqb (Row.id r) notification_id) (Db.rows db)), db).

(** [database.get(Notification, label, field="label")] *)
Definition database_get_by_label (label : string) : M Db.t (option Row.t) :=
  fun db =>
    (Ok (List.find (fun r => String.eqb (Row.label r) label) (Db.rows db)), db).

Definition with_id (r : Row.t) (i : Z) : Row.t :=
  Row.mk i (Row.label r) (Row.plugin_name r) (Row.options r)
    (Row.expiration_intervals r) (Row.description r) (Row.active r)
    (Row.certificates r).

(** [database.create(model)]: the row is added under the next id and
    handed back. *)
Definition database_create (r : Row.t) : M Db.t Row.t :=
  fun db =>
    let r' := with_id r (Db.next_id db) in
    (Ok r', Db.mk (Db.rows db ++ [r']) (Db.next_id db + 1)).

(** [database.update(model)]: the row of that id is written. *)
Definition database_update (r : Row.t) : M Db.t Row.t :=
  fun db =>
    (Ok r,
     Db.mk (map (fun old => if Z.eqb (Row.id old) (Row.id r) then r else old)
              (Db.rows db))
           (Db.next_id db)).

Definition get (notification_id : Z) : M Db.t (option Row.t) :=
  database_get notification_id.

Definition get_by_label (label : string) : M Db.t (option Row.t) :=
  database_get_by_label label.

Definition create (label plugin_name : string) (options : list OptionDict.t)
    (expiration_intervals : list Z) (description : string) (certificates : list Z)
  : M Db.t Row.t :=
  let notification :=
    Row.mk 0 label plugin_name options expiration_intervals description None [] in
  let notification :=
    Row.mk (Row.id notification) (Row.label notification)
      (Row.plugin_name notification) (Row.options notification)
      (Row.expiration_intervals notification) (Row.description notification)
      (Row.active notification) certificates in
  database_create notification.

Definition update (notification_id : Z) (label plugin_name : string)
    (options : list OptionDict.t) (description : string) (active : bool)
    (certificates : list Z) : M Db.t Row.t :=
  let* notification := get notification_id in
  match notification with
  | None => raise (AttributeError "'NoneType' object has no attribute 'label'")
  | Some notification =>
      let notification :=
        Row.mk (Row.id notification) label plugin_name options
          (Row.expiration_intervals notification) description (Some active)
          certificates in
      database_update notification
  end.

(** What [create_default_notifications] hands back: the empty list, or
    a notification. *)
Inductive defaults :=
| NoNotifications
| TheNotification (r : Row.t).

(** The options [create_default_notifications] builds. *)
Definition default_options (recipients : list string) : list OptionDict.t :=
  [OptionDict.mk "recipients" "str" true
     "^([\w+-.%]+@[\w-.]+\.[A-Za-z]{2,4},?)+$"
     "Comma delimited list of email addresses"
     (PyStr (join "," recipients))].

Definition create_default_notifications (config : Config.t) (base_name : string)
    (recipients : list string) (expiration_intervals : option (list Z))
  : M Db.t defaults :=
  if negb (truthy_list recipients) then ret NoNotifications
  else
    let options := default_options recipients in
    let expiration_intervals :=
      match expiration_intervals with
      | None =>
          config_get (Config.LEMUR_DEFAULT_EXPIRATION_NOTIFICATION_INTERVALS config)
                     [30; 15; 2]
      | Some l => l
      end in
    let name := String.append "DEFAULT_" base_name in
    let* existing := get_by_label name in
    match existing with
    | Some existing => ret (TheNotification existing)
    | None =>
        let* created :=
          create name
            (config_get (Config.LEMUR_DEFAULT_NOTIFICATION_PLUGIN config)
                        "email-notification")
            options expiration_intervals
            (String.append "Default notification for " name) [] in
        ret (TheNotification created)
    end.

(** The rows of a label. *)
Definition labelled (label : string) (db : Db.t) : list Row.t :=
  List.filter (fun r => String.eqb (Row.label r) label) (Db.rows db).

End NotificationService.



(** A world in which templates render and both mail clients accept. *)
Definition sample_world : EmailPlugin.World.t :=
  EmailPlugin.World.mk
    (fun template _ _ _ => Ok (String.append "<html>" template))
    (fun _ _ => None)
    (fun _ _ => None).

Definition smtp_config : EmailPlugin.Config.t :=
  EmailPlugin.Config.mk (Some "SMTP") None None (Some "lemur@example.com") None.

Definition sendgrid_config : EmailPlugin.Config.t :=
  EmailPlugin.Config.mk (Some "sendgrid") None None (Some "lemur@example.com") None.

Definition sample_db : NotificationService.Db.t :=
  NotificationService.Db.mk
    [NotificationService.Row.mk 1 "DEFAULT_OPS" "email-notification"
       (NotificationService.default_options ["ops@example.com"]) [30; 15; 2]
       "Default notification for DEFAULT_OPS" None []]
    2.

Definition service_config : NotificationService.Config.t :=
  NotificationService.Config.mk None None.

(** A notification with the options [create_default_notifications]
    builds, active, on a certificate. *)
Definition default_notification : Notification.t :=
  Notification.mk 30 "DEFAULT_OPS" true
    (map NotificationService.as_plugin_option
       (NotificationService.default_options ["ops@example.com"]))
    (sample_plugin "email-notification") false.

Definition cert_default : Certificate.t :=
  sample_certificate 8 "with-default" "owner@example.com" (timedelta_days 30)
    [default_notification].

(** The row [update] writes over [old]. *)
Definition updated_row (old : NotificationService.Row.t) (label plugin_name : string)
    (options : list NotificationService.OptionDict.t) (description : string)
    (active : bool) (certificates : list Z) : NotificationService.Row.t :=
  NotificationService.Row.mk (NotificationService.Row.id old) label plugin_name options
    (NotificationService.Row.expiration_intervals old) description (Some active)
    certificates.

(** A certificate with one notification through the test plugin, due at
    instant 0, with one recipient. *)
Definition test_notification : Notification.t :=
  Notification.mk 21 "test" true (sample_options 10 "days") TestNotificationPlugin false.

Definition cert_via_test : Certificate.t :=
  sample_certificate 9 "via-test-plugin" "owner@example.com" (timedelta_days 10)
    [test_notification].

Definition failing_source : Deployment.SourcePlugin.t :=
  Deployment.SourcePlugin.mk (fun _ _ => Some (PluginFailure "load balancer unreachable")).

Definition store_failing_source : Deployment.Store.t :=
  Deployment.Store.mk
    (fun r => Deployment.Endpoint.mk "elb-frontend" (Some 1) failing_source)
    (Deployment.Store.certificates sample_store)
    (fun _ => None) (fun _ => None) [].


(** The status the metric of a call carries for what the call hands
    back. *)
Definition status_of (r : retval) : metric_status :=
  if truthy r then SUCCESS_METRIC_STATUS else FAILURE_METRIC_STATUS.

(** The events [added] end a call that handed back [r] for [event_type]
    through the plugin [slug]: the last of them is the metric, with the
    status of [r], and when [r] is [None] an exception was reported to
    sentry. *)
Definition accounted (added : trace) (r : retval) (event_type slug : string) : Prop :=
  (exists before, added = before ++ [MetricsSend (status_of r) event_type slug]) /\
  (truthy r = false -> exists e, In (SentryCapture e) added).

(** The instants a Python [datetime] holds, in microseconds since the
    epoch, from the first instant of year 1 to the last of year 9999,
    and the most days a [timedelta] holds. *)
Definition datetime_min : Z := -62135596800000000.
Definition datetime_max : Z := 253402300799999999.
Definition timedelta_max_days : Z := 999999999.

(** [now + timedelta(days=n)] is computed without [OverflowError]: the
    span and the instant it leads to are ones Python holds.  The model
    adds in [Z]; it is the code's sum where this holds. *)
Definition no_overflow (now n : Z) : Prop :=
  - timedelta_max_days <= n <= timedelta_max_days /\
  datetime_min <= now + timedelta_days n <= datetime_max.




(** ** Exceptions outside [Exception] *)

(** The dispatch once more, with plugins whose [send] may also raise
    what derives from [BaseException] only; [except Exception] does not
    catch it. *)
Module Interrupts.

Inductive base_exception :=
| KeyboardInterrupt
| SystemExit
| GeneratorExit.

(** What a call raises: an instance of [Exception], or not. *)
Inductive raised :=
| ExceptionInstance (e : exn)
| BaseExceptionOnly (b : base_exception).

Inductive outcome (A : Type) :=
| Returns (a : A)
| Raises (r : raised).
Arguments Returns {A} a.
Arguments Raises {A} r.

(** What the [send] of a plugin raises outside [Exception], if anything,
    given what happened before and the arguments of the call; when it
    is [None] the send does what [Plugin.send] says. *)
Definition interrupts : Type :=
  Plugin.t -> list event -> string -> message -> list string ->
  option (list PluginOption.t) -> option base_exception.

Definition M (A : Type) : Type := trace -> outcome A * trace.

Definition ret {A} (a : A) : M A := fun t => (Returns a, t).

Definition bind {A B} (m : M A) (k : A -> M B) : M B :=
  fun t =>
    match m t with
    | (Returns a, t') => k a t'
    | (Raises r, t') => (Raises r, t')
    end.

(** [try: body / except Exception: handler] *)
Definition try_except {A} (body : M A) (handler : exn -> M A) : M A :=
  fun t =>
    match body t with
    | (Returns a, t') => (Returns a, t')
    | (Raises (ExceptionInstance e), t') => handler e t'
    | (Raises (BaseExceptionOnly b), t') => (Raises (BaseExceptionOnly b), t')
    end.

Definition emit (ev : event) : M unit := fun t => (Returns tt, t ++ [ev]).

(** [plugin.send(notification_type, data, targets, options)] *)
Definition plugin_send (i : interrupts) (p : Plugin.t) (notification_type : string)
    (data : message) (targets : list string) (options : option (list PluginOption.t))
  : M unit :=
  fun t =>
    let t' :=
      t ++ [PluginSend (Plugin.slug p) notification_type data targets options] in
    match i p t notification_type data targets options with
    | Some b => (Raises (BaseExceptionOnly b), t')
    | None =>
        match Plugin.send p t notification_type data targets options with
        | None => (Returns tt, t')
        | Some e => (Raises (ExceptionInstance e), t')
        end
    end.

Definition send_default_notification (i : interrupts) (app : App.t)
    (notification_type : string) (data : message) (targets : list string)
    (notification_options : option (list PluginOption.t)) : M retval :=
  let function := "lemur.notifications.messaging.send_default_notification" in
  let notification_plugin :=
    App.plugins_get app
      (config_get (Config.LEMUR_DEFAULT_NOTIFICATION_PLUGIN (App.config app))
                  "email-notification") in
  let slug := Plugin.slug notification_plugin in
  bind
    (try_except
       (bind (emit (LoggerDebug function notification_type slug)) (fun _ =>
        bind (plugin_send i notification_plugin notification_type data targets
                notification_options) (fun _ =>
        ret SUCCESS_METRIC_STATUS)))
       (fun e =>
          bind (emit (LoggerError function notification_type slug)) (fun _ =>
          bind (emit (SentryCapture e)) (fun _ =>
          ret FAILURE_METRIC_STATUS))))
    (fun status =>
     bind (emit (MetricsSend status notification_type slug)) (fun _ =>
     ret (status_retval status))).

Definition send_plugin_notification (i : interrupts) (app : App.t)
    (event_type : string) (data : message) (recipients : list string)
    (notification : Notification.t) : M retval :=
  let function := "lemur.notifications.messaging.send_plugin_notification" in
  let plugin := Notification.plugin notification in
  let slug := Plugin.slug plugin in
  bind
    (try_except
       (bind (emit (LoggerDebug function event_type slug)) (fun _ =>
        bind (plugin_send i plugin event_type data recipients
                (Some (Notification.options notification))) (fun _ =>
        if negb (String.eqb slug "email-notification") then
          bind (send_default_notification i app event_type data recipients
                  (Some (Notification.options notification))) (fun sent =>
          if truthy sent then ret SUCCESS_METRIC_STATUS
          else ret FAILURE_METRIC_STATUS)
        else ret SUCCESS_METRIC_STATUS)))
       (fun e =>
          bind (emit (LoggerError function event_type slug)) (fun _ =>
          bind (emit (SentryCapture e)) (fun _ =>
          ret FAILURE_METRIC_STATUS))))
    (fun status =>
     bind (emit (MetricsSend status event_type slug)) (fun _ =>
     ret (status_retval status))).



(** A user at the keyboard: every send is interrupted. *)
Definition keyboard : interrupts := fun _ _ _ _ _ _ => Some KeyboardInterrupt.

End Interrupts.


(** * Properties *)

(** ** The model on small inputs *)

Example lower_upper : lower "T" = "t"%char /\ lower "_" = "_"%char.
Proof. split; reflexivity. Qed.

Example ilike_folds_case : ilike "MyTestCert" "%test%" = true.
Proof. reflexivity. Qed.

Example ilike_underscore : ilike "abc" "%a_c%" = true /\ contains_ci "abc" "a_c" = false.
Proof. split; reflexivity. Qed.

Example ilike_escaped_underscore : ilike "abc" "%a\_c%" = false.
Proof. reflexivity. Qed.

Example py_str_negative : py_str (PyInt (-14)) = "-14".
Proof. reflexivity. Qed.

Example days_between_rounds_down :
  days_between (timedelta_days 10 - 1) 0 = 9 /\ days_between (-1) 0 = -1.
Proof. split; reflexivity. Qed.

(** A str interval is repeated, not multiplied, and matches no day count. *)
Example apply_unit_str_weeks :
  apply_unit (PyStr "2") (PyStr "weeks") = Ok (PyStr "2222222").
Proof. reflexivity. Qed.

(** A missing interval cannot be multiplied. *)
Example apply_unit_none_months :
  is_ok (apply_unit PyNone (PyStr "months")) = false /\
  apply_unit PyNone (PyStr "days") = Ok PyNone.
Proof. split; reflexivity. Qed.

Example windowed_query_orders_by_id :
  windowed_query [ca_3; ca_1; ca_2] = [ca_1; ca_2; ca_3].
Proof. reflexivity. Qed.

Example groupby_runs :
  groupby Z.eqb (fun x => x / 10) [11; 12; 25; 13]
  = [(1, [11; 12]); (2, [25]); (1, [13])].
Proof. reflexivity. Qed.

(** A send that fails: logged, reported, counted as a failure, and
    [None] comes back. *)
Example send_default_notification_failure :
  send_default_notification failing_app "revocation" (MsgMany []) ["a@example.com"] None []
  = (Ok RNone,
     [LoggerDebug "lemur.notifications.messaging.send_default_notification"
        "revocation" "email-notification";
      PluginSend "email-notification" "revocation" (MsgMany []) ["a@example.com"] None;
      LoggerError "lemur.notifications.messaging.send_default_notification"
        "revocation" "email-notification";
      SentryCapture (PluginFailure "connection refused");
      MetricsSend FAILURE_METRIC_STATUS "revocation" "email-notification"]).
Proof. reflexivity. Qed.

(** The plugin's own send goes through, the default send after it
    fails: [None] comes back. *)
Example send_plugin_notification_secondary_failure :
  fst (send_plugin_notification failing_app "rotation" (MsgMany []) ["a@example.com"]
         slack_notification [])
  = Ok RNone.
Proof. reflexivity. Qed.

(** Without a security-team list the fallback cannot build its
    recipients. *)
Example fallback_without_security_team :
  fst (send_plugin_notification_with_email_fallback
         (App.mk (Config.mk None None None) sample_plugin)
         (certificate_notification_output_schema_dump cert_bare) [] "revocation" [])
  = Raise (TypeError (concat_error "list" "NoneType")).
Proof. reflexivity. Qed.

(** An endpoint without a certificate: the endpoint is updated and
    written, then the assignment to [notify] fails. *)
Example rotate_certificate_without_old :
  fst (Deployment.rotate_certificate 7 2
         (Deployment.Store.mk
            (fun _ => Deployment.Endpoint.mk "elb-frontend" None sample_source)
            (Deployment.Store.certificates sample_store)
            (fun _ => None) (fun _ => None) []))
  = Raise (AttributeError "'NoneType' object has no attribute 'notify'").
Proof. reflexivity. Qed.


(** ** Interval matching *)

Lemma truthy_list_nonempty {A} (l : list A) : truthy_list l = true <-> l <> [].
Proof. destruct l; simpl; split; congruence. Qed.

Lemma skip_active_configured n :
  negb (Notification.active n) || negb (truthy_list (Notification.options n))
  = negb (active_configured n).
Proof. unfold active_configured. now rewrite negb_andb. Qed.


Lemma needs_expiration_loop_first_failure days pre n post acc e :
  forallb passes pre = true ->
  active_configured n = true ->
  apply_unit (interval_of n) (unit_of n) = Raise e ->
  needs_expiration_loop days (pre ++ n :: post) acc = Raise e.
Proof.
  revert acc. induction pre as [|m pre IH]; intros acc Hpre Hn He; simpl.
  - rewrite skip_active_configured, Hn. simpl.
    fold (interval_of n) (unit_of n). now rewrite He.
  - simpl in Hpre. apply andb_true_iff in Hpre as [Hm Hpre].
    rewrite skip_active_configured. unfold passes in Hm.
    fold (interval_of m) (unit_of m).
    destruct (active_configured m); simpl in *.
    + destruct (apply_unit (interval_of m) (unit_of m)) as [v|e']; [|discriminate].
      destruct (py_eq_int days v); now apply IH.
    + now apply IH.
Qed.

(** A list on which a test fails somewhere splits at the first failure. *)
Lemma forallb_first_failure {A} (f : A -> bool) (l : list A) :
  forallb f l = false ->
  exists pre x post, l = pre ++ x :: post /\ forallb f pre = true /\ f x = false.
Proof.
  induction l as [|a l IH]; simpl; [discriminate|].
  destruct (f a) eqn:Ha; simpl.
  - intros H. destruct (IH H) as (pre & x & post & -> & Hpre & Hx).
    exists (a :: pre), x, post. simpl. now rewrite Ha, Hpre.
  - intros _. exists [], a, l. auto.
Qed.

Lemma needs_expiration_loop_fails days todo acc :
  forallb passes todo = false ->
  exists e, needs_expiration_loop days todo acc = Raise e.
Proof.
  intros H. apply forallb_first_failure in H as (pre & n & post & -> & Hpre & Hn).
  unfold passes in Hn. apply orb_false_iff in Hn as [Hac Hok].
  apply negb_false_iff in Hac.
  destruct (apply_unit (interval_of n) (unit_of n)) as [v|e] eqn:He; [discriminate|].
  exists e. now apply needs_expiration_loop_first_failure.
Qed.

Lemma unit_factor_cases unit :
  (unit = PyStr "days" /\ unit_factor unit = Some 1) \/
  (unit = PyStr "weeks" /\ unit_factor unit = Some 7) \/
  (unit = PyStr "months" /\ unit_factor unit = Some 30) \/
  (unit_factor unit = None /\
   py_eq_str unit "days" = false /\ py_eq_str unit "weeks" = false /\
   py_eq_str unit "months" = false).
Proof.
  unfold unit_factor.
  destruct (py_eq_str unit "days") eqn:Hd.
  { left. destruct unit; try discriminate. simpl in Hd.
    apply String.eqb_eq in Hd. now subst. }
  destruct (py_eq_str unit "weeks") eqn:Hw.
  { right; left. destruct unit; try discriminate. simpl in Hw.
    apply String.eqb_eq in Hw. now subst. }
  destruct (py_eq_str unit "months") eqn:Hm.
  { right; right; left. destruct unit; try discriminate. simpl in Hm.
    apply String.eqb_eq in Hm. now subst. }
  right; right; right. auto.
Qed.

Lemma apply_unit_invalid interval unit :
  unit_factor unit = None ->
  apply_unit interval unit
  = Raise (Exception (String.append "Invalid base unit for expiration interval: "
                                    (py_str unit))).
Proof.
  intros H. destruct (unit_factor_cases unit) as [[_ E]|[[_ E]|[[_ E]|(_ & Hd & Hw & Hm)]]];
    try congruence.
  unfold apply_unit. now rewrite Hw, Hm, Hd.
Qed.

Ltac scaled_case k :=
  split;
  [ first [ discriminate
          | intros _ _; exists k; split; [reflexivity|discriminate] ]
  | first [ reflexivity
          | let H := fresh in
            let f := fresh in
            let Hf := fresh in
            let Hn := fresh in
            intros H; destruct (H eq_refl) as (f & Hf & Hn);
            injection Hf as <-; specialize (Hn eq_refl); discriminate ] ].

Lemma passes_well_configured n : passes n = true <-> well_configured n.
Proof.
  unfold passes, well_configured.
  destruct (active_configured n); simpl; [|split; [discriminate|reflexivity]].
  destruct (unit_factor_cases (unit_of n))
    as [[Hu E]|[[Hu E]|[[Hu E]|(E & Hd & Hw & Hm)]]].
  - rewrite Hu. cbn. split; [intros _ _|reflexivity]. exists 1. auto.
  - rewrite E, Hu. unfold apply_unit. cbn.
    destruct (interval_of n); cbn; scaled_case 7.
  - rewrite E, Hu. unfold apply_unit. cbn.
    destruct (interval_of n); cbn; scaled_case 30.
  - rewrite apply_unit_invalid by assumption. cbn. rewrite E.
    split; [discriminate|]. intros H. destruct (H eq_refl) as (f & Hf & _).
    discriminate.
Qed.

Lemma matches_triggers days n : matches days n = true <-> triggers days n.
Proof.
  unfold matches, triggers, active_configured.
  rewrite <- truthy_list_nonempty.
  destruct (Notification.active n); simpl;
    [|split; [discriminate|intros [H _]; discriminate]].
  destruct (truthy_list (Notification.options n)); simpl;
    [|split; [discriminate|intros (_ & H & _); discriminate]].
  destruct (unit_factor_cases (unit_of n))
    as [[Hu E]|[[Hu E]|[[Hu E]|(E & Hd & Hw & Hm)]]].
  - rewrite E, Hu. unfold apply_unit. cbn.
    destruct (interval_of n) as [|i|s]; cbn.
    + split; [discriminate|]. intros (_ & _ & i & f & Hi & _); discriminate.
    + rewrite Z.eqb_eq. split.
      * intros ->. repeat split. exists i, 1. repeat split. lia.
      * intros (_ & _ & i' & f & Hi & Hf & ->). injection Hi as <-.
        injection Hf as <-. lia.
    + split; [discriminate|]. intros (_ & _ & i & f & Hi & _); discriminate.
  - rewrite E, Hu. unfold apply_unit. cbn.
    destruct (interval_of n) as [|i|s]; cbn.
    + split; [discriminate|]. intros (_ & _ & i & f & Hi & _); discriminate.
    + rewrite Z.eqb_eq. split.
      * intros ->. repeat split. exists i, 7. repeat split.
      * intros (_ & _ & i' & f & Hi & Hf & ->). injection Hi as <-.
        injection Hf as <-. reflexivity.
    + split; [discriminate|]. intros (_ & _ & i & f & Hi & _); discriminate.
  - rewrite E, Hu. unfold apply_unit. cbn.
    destruct (interval_of n) as [|i|s]; cbn.
    + split; [discriminate|]. intros (_ & _ & i & f & Hi & _); discriminate.
    + rewrite Z.eqb_eq. split.
      * intros ->. repeat split. exists i, 30. repeat split.
      * intros (_ & _ & i' & f & Hi & Hf & ->). injection Hi as <-.
        injection Hf as <-. reflexivity.
    + split; [discriminate|]. intros (_ & _ & i & f & Hi & _); discriminate.
  - rewrite apply_unit_invalid by assumption. rewrite E.
    split; [discriminate|]. intros (_ & _ & i & f & _ & Hf & _); discriminate.
Qed.

Lemma forallb_passes (l : list Notification.t) :
  forallb passes l = true <-> (forall n, In n l -> well_configured n).
Proof.
  rewrite forallb_forall. split; intros H n Hn; apply passes_well_configured; auto.
Qed.


Lemma needs_expiration_notification_ok_inv now c due :
  needs_expiration_notification now c = Ok due ->
  forall n, In n (Certificate.notifications c) -> well_configured n.
Proof.
  intros H. apply forallb_passes.
  destruct (forallb passes (Certificate.notifications c)) eqn:E; [reflexivity|].
  apply (needs_expiration_loop_fails (days_remaining now c) _ []) in E as [e He].
  unfold needs_expiration_notification in H. unfold days_remaining in He. congruence.
Qed.


(** ** The scan over the table *)

Lemma insert_by_id_In c d l : In d (insert_by_id c l) <-> d = c \/ In d l.
Proof.
  induction l as [|x l IH]; simpl.
  - split; [intros [H|[]]|intros [H|[]]]; auto.
  - destruct (Z.leb (Certificate.id c) (Certificate.id x)); simpl.
    + split; [intros [H|H]|intros [H|H]]; auto.
    + rewrite IH. split; [intros [H|[H|H]]|intros [H|[H|H]]]; auto.
Qed.

(** Paging through the windows neither drops nor invents a row. *)
Lemma windowed_query_In c q : In c (windowed_query q) <-> In c q.
Proof.
  unfold windowed_query. induction q as [|x q IH]; simpl; [tauto|].
  rewrite insert_by_id_In, IH. split; [intros [H|H]|intros [H|H]]; auto.
Qed.

Lemma get_certificates_loop_returns now rows certs :
  forallb (check_returns now) rows = true ->
  get_certificates_loop now rows certs = Ok (certs ++ List.filter (has_due now) rows).
Proof.
  revert certs. induction rows as [|c rows IH]; intros certs H; simpl.
  - now rewrite app_nil_r.
  - simpl in H. apply andb_true_iff in H as [Hc Hrows].
    unfold check_returns in Hc. unfold has_due.
    destruct (needs_expiration_notification now c) as [due|e]; [|discriminate].
    destruct (truthy_list due).
    + rewrite IH by assumption. now rewrite <- app_assoc.
    + now apply IH.
Qed.

Lemma get_certificates_loop_first_failure now pre c post certs e :
  forallb (check_returns now) pre = true ->
  needs_expiration_notification now c = Raise e ->
  get_certificates_loop now (pre ++ c :: post) certs = Raise e.
Proof.
  revert certs. induction pre as [|d pre IH]; intros certs Hpre He; simpl.
  - now rewrite He.
  - simpl in Hpre. apply andb_true_iff in Hpre as [Hd Hpre].
    unfold check_returns in Hd.
    destruct (needs_expiration_notification now d) as [due|e']; [|discriminate].
    destruct (truthy_list due); now apply IH.
Qed.

Lemma get_certificates_loop_fails now rows certs :
  forallb (check_returns now) rows = false ->
  exists e, get_certificates_loop now rows certs = Raise e.
Proof.
  intros H. apply forallb_first_failure in H as (pre & c & post & -> & Hpre & Hc).
  unfold check_returns in Hc.
  destruct (needs_expiration_notification now c) as [due|e] eqn:He; [discriminate|].
  exists e. now apply get_certificates_loop_first_failure.
Qed.

Lemma get_certificates_ok_inv now table exclude certs :
  get_certificates now table exclude = Ok certs ->
  forallb (check_returns now)
    (windowed_query (get_certificates_query now table exclude)) = true /\
  certs = List.filter (has_due now)
            (windowed_query (get_certificates_query now table exclude)).
Proof.
  unfold get_certificates. intros H.
  destruct (forallb (check_returns now)
              (windowed_query (get_certificates_query now table exclude))) eqn:E.
  - split; [reflexivity|]. rewrite get_certificates_loop_returns in H by assumption.
    now injection H as <-.
  - apply (get_certificates_loop_fails now _ []) in E as [e He]. congruence.
Qed.

(** C5: a certificate with an active, configured notification whose unit
    is none of days, weeks and months makes
    [needs_expiration_notification] raise; when that notification is the
    first the loop cannot get through, what is raised is the invalid
    base unit exception, whatever follows in the list; and once the
    certificate is among the rows of the scan, [get_certificates],
    [get_eligible_certificates] and [send_expiration_notifications] all
    raise, the last one before anything is sent. *)
Theorem invalid_unit_raises now c n :
  In n (Certificate.notifications c) ->
  active_configured n = true ->
  unit_factor (unit_of n) = None ->
  (exists e, needs_expiration_notification now c = Raise e) /\
  (forall pre post,
     Certificate.notifications c = pre ++ n :: post ->
     (forall m, In m pre -> well_configured m) ->
     needs_expiration_notification now c
     = Raise (Exception (String.append "Invalid base unit for expiration interval: "
                                       (py_str (unit_of n))))) /\
  (forall table exclude,
     In c (get_certificates_query now table exclude) ->
     exists e,
       get_certificates now table exclude = Raise e /\
       get_eligible_certificates now table exclude = Raise e /\
       forall app t,
         send_expiration_notifications app now table exclude t = (Raise e, t)).
Proof.
  intros Hn Hac Hunit.
  assert (Hraise : exists e, needs_expiration_notification now c = Raise e).
  { destruct (needs_expiration_notification now c) as [due|e] eqn:E; [|eauto].
    apply needs_expiration_notification_ok_inv with (n := n) in E; [|assumption].
    destruct (E Hac) as (f & Hf & _). congruence. }
  split; [assumption|]. split.
  - intros pre post Hsplit Hpre. unfold needs_expiration_notification.
    rewrite Hsplit. apply needs_expiration_loop_first_failure.
    + now apply forallb_passes.
    + assumption.
    + now apply apply_unit_invalid.
  - intros table exclude Hin.
    assert (Hfail : forallb (check_returns now)
              (windowed_query (get_certificates_query now table exclude)) = false).
    { apply not_true_is_false. intros Hall.
      rewrite forallb_forall in Hall. specialize (Hall c).
      rewrite windowed_query_In in Hall. specialize (Hall Hin).
      unfold check_returns in Hall. destruct Hraise as [e He].
      rewrite He in Hall. discriminate. }
    apply (get_certificates_loop_fails now _ []) in Hfail as [e He].
    exists e. unfold get_eligible_certificates, send_expiration_notifications,
      get_eligible_certificates, get_certificates, bind, lift.
    rewrite He. auto.
Qed.

Lemma get_certificates_query_In now table exclude c :
  In c (get_certificates_query now table exclude) <->
  In c table /\
  Certificate.not_after c <= now + timedelta_days 90 /\
  Certificate.notify c = true /\
  Certificate.expired c = false /\
  Certificate.revoked c = false /\
  exclude_conditions (exclude_given exclude) c = true.
Proof.
  unfold get_certificates_query.
  assert (Hbase : forall d,
    In d (List.filter (fun c =>
      Z.leb (Certificate.not_after c) (now + timedelta_days 90)
      && Bool.eqb (Certificate.notify c) true
      && Bool.eqb (Certificate.expired c) false
      && Bool.eqb (Certificate.revoked c) false) table) <->
    In d table /\
    Certificate.not_after d <= now + timedelta_days 90 /\
    Certificate.notify d = true /\
    Certificate.expired d = false /\
    Certificate.revoked d = false).
  { intros d. rewrite filter_In, !andb_true_iff, Z.leb_le, !eqb_true_iff. tauto. }
  destruct (exclude_given exclude) as [|e es] eqn:E; simpl truthy_list; cbv iota.
  - rewrite Hbase. simpl. tauto.
  - rewrite filter_In, Hbase. tauto.
Qed.

Lemma get_certificates_In now table exclude certs c :
  get_certificates now table exclude = Ok certs ->
  (In c certs <->
   In c (get_certificates_query now table exclude) /\ has_due now c = true).
Proof.
  intros H. apply get_certificates_ok_inv in H as [_ ->].
  now rewrite filter_In, windowed_query_In.
Qed.

Lemma authority_query_In max_not_after table c :
  In c (authority_query max_not_after table) <->
  In c table /\ Certificate.not_after c < max_not_after /\ eligible_authority c.
Proof.
  unfold authority_query, eligible_authority.
  rewrite filter_In, !andb_true_iff, Z.ltb_lt, !eqb_true_iff, negb_true_iff.
  destruct (Certificate.root_authority_id c), (Certificate.authority_id c); simpl;
    intuition congruence.
Qed.

Lemma get_expiring_authority_certificates_In config now table certs c :
  get_expiring_authority_certificates config now table = Ok certs ->
  In c certs ->
  exists m,
    In c (authority_query (now + timedelta_days (m + 1)) table) /\
    py_in (days_remaining now c) (authority_expiration_intervals config) = true.
Proof.
  unfold get_expiring_authority_certificates.
  destruct (py_max (authority_expiration_intervals config)) as [m|e]; [|discriminate].
  intros H Hin. injection H as <-. apply filter_In in Hin as [Hq Hd].
  rewrite windowed_query_In in Hq. exists m. split; [exact Hq|exact Hd].
Qed.

(** C2: a certificate that is flagged expired, or flagged revoked, or
    whose notify flag is off, is in no result of [get_certificates] and
    in no result of [get_expiring_authority_certificates]. *)
Theorem flagged_never_eligible now table exclude config c :
  Certificate.expired c = true \/
  Certificate.revoked c = true \/
  Certificate.notify c = false ->
  (forall certs, get_certificates now table exclude = Ok certs -> ~ In c certs) /\
  (forall certs,
     get_expiring_authority_certificates config now table = Ok certs ->
     ~ In c certs).
Proof.
  intros Hflag. split; intros certs H Hin.
  - apply (get_certificates_In _ _ _ _ c) in H. apply H in Hin as [Hq _].
    apply (proj1 (get_certificates_query_In _ _ _ _)) in Hq
      as (_ & _ & Hn & He & Hr & _).
    destruct Hflag as [F|[F|F]]; congruence.
  - destruct (get_expiring_authority_certificates_In _ _ _ _ _ H Hin) as (m & Hq & _).
    apply (proj1 (authority_query_In _ _ _)) in Hq as (_ & _ & Hn & He & Hr & _).
    destruct Hflag as [F|[F|F]]; congruence.
Qed.

(** ** [ILIKE] against substrings *)

Lemma list_ascii_of_string_append a b :
  list_ascii_of_string (String.append a b)
  = list_ascii_of_string a ++ list_ascii_of_string b.
Proof. induction a as [|c a IH]; simpl; [reflexivity|]. now rewrite IH. Qed.

Lemma like_tokens_literal e rest :
  forallb like_literal_char e = true ->
  like_tokens (e ++ rest) = map LikeChar e ++ like_tokens rest.
Proof.
  induction e as [|c e IH]; intros H; [reflexivity|].
  simpl in H. apply andb_true_iff in H as [Hc He].
  unfold like_literal_char in Hc.
  apply andb_true_iff in Hc as [Hc H3]. apply andb_true_iff in Hc as [H1 H2].
  apply negb_true_iff in H1, H2, H3.
  change ((c :: e) ++ rest) with (c :: (e ++ rest)).
  cbn [like_tokens map app]. rewrite H1, H2, H3. now rewrite IH.
Qed.

Lemma like_match_any p s :
  like_match (LikeAny :: p) s
  = like_match p s
    || match s with
       | [] => false
       | _ :: s' => like_match (LikeAny :: p) s'
       end.
Proof. destruct s; reflexivity. Qed.

Lemma like_match_any_end s : like_match [LikeAny] s = true.
Proof.
  induction s as [|c s IH]; [reflexivity|].
  rewrite like_match_any, IH. apply orb_true_r.
Qed.

Lemma like_match_literal_prefix e s :
  like_match (map LikeChar e ++ [LikeAny]) s = prefix_ci e s.
Proof.
  revert s. induction e as [|a e IH]; intros s.
  - simpl map. simpl app. rewrite like_match_any_end. now destruct s.
  - destruct s as [|b s]; [reflexivity|].
    simpl. now rewrite IH.
Qed.

Lemma like_match_literal_contains e s :
  like_match (LikeAny :: map LikeChar e ++ [LikeAny]) s = contains_ci_list e s.
Proof.
  induction s as [|b s IH]; rewrite like_match_any, like_match_literal_prefix.
  - reflexivity.
  - rewrite IH. reflexivity.
Qed.

(** An entry free of [%], [_] and the backslash excludes the names that
    contain it, the case folded, and no other. *)
Lemma ilike_literal name e :
  like_literal e = true ->
  ilike name (String.append "%" (String.append e "%")) = contains_ci name e.
Proof.
  intros H. unfold ilike, contains_ci.
  rewrite !list_ascii_of_string_append.
  change (list_ascii_of_string "%") with ["%"%char].
  change (like_tokens (["%"%char] ++ ?l)) with (LikeAny :: like_tokens l).
  cbn [app like_tokens]. cbn [Ascii.eqb Bool.eqb].
  rewrite like_tokens_literal by exact H.
  cbn [like_tokens Ascii.eqb Bool.eqb].
  apply like_match_literal_contains.
Qed.

Lemma exclude_conditions_literal es c :
  (forall e, In e es -> like_literal e = true) ->
  (exclude_conditions es c = true <->
   forall e, In e es -> contains_ci (Certificate.name c) e = false).
Proof.
  intros Hlit. unfold exclude_conditions. rewrite forallb_forall.
  split; intros H e He; specialize (H e He).
  - rewrite ilike_literal in H by auto. now apply negb_true_iff.
  - rewrite ilike_literal by auto. now apply negb_true_iff.
Qed.

Lemma has_due_true now c :
  has_due now c = true <->
  exists due, needs_expiration_notification now c = Ok due /\ due <> [].
Proof.
  unfold has_due. destruct (needs_expiration_notification now c) as [due|e].
  - rewrite truthy_list_nonempty. split.
    + intros H. now exists due.
    + intros (due' & E & H). now injection E as <-.
  - split; [discriminate|]. intros (due & E & _). discriminate.
Qed.

(** [get_certificates] returns as soon as the check returns on every row
    of its query. *)
Lemma get_certificates_returns now table exclude :
  (forall c, In c (get_certificates_query now table exclude) ->
             check_returns now c = true) ->
  exists certs, get_certificates now table exclude = Ok certs.
Proof.
  intros H. eexists. unfold get_certificates.
  apply get_certificates_loop_returns. apply forallb_forall.
  intros c Hc. apply H. now apply windowed_query_In.
Qed.

(** C6, as amended: when the names of the certificates and the
    [exclude] entries are ASCII and no entry holds one of [%], [_] and
    the backslash, [get_certificates] returns (it does as soon as the
    check returns on every row of its query) exactly the certificates of
    the table that are not revoked, not expired, notify-enabled, expire
    no later than 90 days from now, whose name contains none of the
    entries with the case folded, and for which
    [needs_expiration_notification] gives a non-empty list. *)
Theorem get_certificates_exact now table exclude :
  (forall c, In c table -> is_ascii (Certificate.name c) = true) ->
  (forall e, In e (exclude_given exclude) -> is_ascii e = true) ->
  (forall e, In e (exclude_given exclude) -> like_literal e = true) ->
  ((forall c, In c (get_certificates_query now table exclude) ->
              check_returns now c = true) ->
   exists certs, get_certificates now table exclude = Ok certs) /\
  forall certs,
    get_certificates now table exclude = Ok certs ->
    forall c, In c certs <-> In c table /\ eligible_by_substring now exclude c.
Proof.
  intros _ _ Hlit. split; [apply get_certificates_returns|].
  intros certs H c. rewrite (get_certificates_In _ _ _ _ c H).
  rewrite get_certificates_query_In, has_due_true.
  rewrite (exclude_conditions_literal _ c Hlit).
  unfold eligible_by_substring. tauto.
Qed.

(** C6, as claimed, fails: with [a_c] to exclude, the certificate named
    [abc] is left out although its name does not contain [a_c]. *)
Lemma get_certificates_underscore_excludes :
  ~ returns_exactly_eligible (Some ["a_c"]).
Proof.
  intros H.
  assert (E : get_certificates 0 [cert_abc] (Some ["a_c"]) = Ok [])
    by (vm_compute; reflexivity).
  specialize (H 0 [cert_abc] [] E cert_abc).
  destruct H as [_ H]. apply H. split; [now left|].
  unfold eligible_by_substring. repeat split.
  - vm_compute. discriminate.
  - intros e [<-|[]]. vm_compute. reflexivity.
  - eexists. split; [vm_compute; reflexivity|discriminate].
Qed.

Lemma get_certificates_exact_witness :
  get_certificates 0 [cert_abc; cert_test] (Some ["test"]) = Ok [cert_abc] /\
  (In cert_abc [cert_abc] <->
   In cert_abc [cert_abc; cert_test]
   /\ eligible_by_substring 0 (Some ["test"]) cert_abc).
Proof.
  assert (E : get_certificates 0 [cert_abc; cert_test] (Some ["test"]) = Ok [cert_abc])
    by (vm_compute; reflexivity).
  split; [exact E|].
  refine (proj2 (get_certificates_exact 0 [cert_abc; cert_test] (Some ["test"]) _ _ _)
            [cert_abc] E cert_abc).
  - intros c [<-|[<-|[]]]; vm_compute; reflexivity.
  - intros e [<-|[]]. vm_compute. reflexivity.
  - intros e [<-|[]]. vm_compute. reflexivity.
Defined.

(** ** Authority certificates *)

Lemma fold_left_max_ge (l : list Z) (x : Z) :
  x <= fold_left Z.max l x /\ forall y, In y l -> y <= fold_left Z.max l x.
Proof.
  revert x. induction l as [|a l IH]; intros x; simpl.
  - split; [lia|intros y []].
  - destruct (IH (Z.max x a)) as [H1 H2]. split; [lia|].
    intros y [<-|Hy]; [lia|auto].
Qed.

Lemma py_max_ge l m d : py_max l = Ok m -> py_in d l = true -> d <= m.
Proof.
  destruct l as [|x l]; [discriminate|]. simpl. intros H. injection H as <-.
  destruct (fold_left_max_ge l x) as [H1 H2].
  intros Hd. apply orb_true_iff in Hd as [Hd|Hd].
  - apply Z.eqb_eq in Hd. now subst.
  - apply existsb_exists in Hd as (y & Hy & E). apply Z.eqb_eq in E. subst. auto.
Qed.

Lemma days_between_bound a b m :
  days_between a b <= m -> a < b + timedelta_days (m + 1).
Proof.
  unfold days_between, timedelta_days, one_day. intros H.
  pose proof (Z.div_mod (a - b) 86400000000 ltac:(lia)) as E.
  pose proof (Z.mod_pos_bound (a - b) 86400000000 ltac:(lia)) as B.
  nia.
Qed.

(** The first half of C8 holds: with at least one interval configured
    (and none so large that Python's sum overflows, where the model
    still adds in [Z]), [get_expiring_authority_certificates] returns
    exactly the eligible authority certificates of the table whose days
    left are one of the intervals; the bound on [not_after] in the
    query excludes none. *)
Lemma get_expiring_authority_certificates_exact config now table :
  authority_expiration_intervals config <> [] ->
  exists certs,
    get_expiring_authority_certificates config now table = Ok certs /\
    forall c,
      In c certs <->
      In c table /\ eligible_authority c /\
      py_in (days_remaining now c) (authority_expiration_intervals config) = true.
Proof.
  intros Hne. unfold get_expiring_authority_certificates.
  destruct (py_max (authority_expiration_intervals config)) as [m|e] eqn:Hm.
  - eexists. split; [reflexivity|]. intros c.
    rewrite filter_In, windowed_query_In, authority_query_In.
    fold (days_remaining now c). split; [tauto|].
    intros (Ht & He & Hd). repeat split; try assumption; try apply He.
    apply days_between_bound. now apply py_max_ge with (authority_expiration_intervals config).
  - destruct (authority_expiration_intervals config); [congruence|discriminate].
Qed.

(** C8, the failing input: three authority certificates due at 365
    days, the first and the third of one owner, the second of another.
    All three are returned as expiring; the grouping keeps the third
    under the first owner and has lost the first. *)
Theorem authority_grouping_loses_certificate :
  get_expiring_authority_certificates default_config 0 [ca_1; ca_2; ca_3]
  = Ok [ca_1; ca_2; ca_3] /\
  get_eligible_authority_certificates default_config 0 [ca_1; ca_2; ca_3]
  = Ok {[ "alice@example.com" := {[ 365 := [ca_3] ]};
          "bob@example.com" := {[ 365 := [ca_2] ]} ]}.
Proof. split; vm_compute; reflexivity. Qed.

(** ** Dispatch *)

(** [send_default_notification], step by step. *)
Lemma send_default_notification_run app ty data targets opts t :
  send_default_notification app ty data targets opts t
  = let slug := Plugin.slug (default_plugin app) in
    let f := "lemur.notifications.messaging.send_default_notification" in
    let t2 := (t ++ [LoggerDebug f ty slug]) ++ [PluginSend slug ty data targets opts] in
    match default_send_outcome app ty data targets opts t with
    | None => (Ok RTrue, t2 ++ [MetricsSend SUCCESS_METRIC_STATUS ty slug])
    | Some e =>
        (Ok RNone,
         ((t2 ++ [LoggerError f ty slug]) ++ [SentryCapture e])
         ++ [MetricsSend FAILURE_METRIC_STATUS ty slug])
    end.
Proof.
  unfold send_default_notification, default_send_outcome, default_plugin,
    try_except, bind, emit, plugin_send, ret.
  cbv zeta.
  destruct (Plugin.send _ _ ty data targets opts); reflexivity.
Qed.

Lemma send_default_notification_returns app ty data targets opts t :
  exists r t',
    send_default_notification app ty data targets opts t = (Ok r, t') /\
    (truthy r = true <-> default_send_outcome app ty data targets opts t = None).
Proof.
  rewrite send_default_notification_run. cbv zeta.
  destruct (default_send_outcome app ty data targets opts t) as [e|].
  - do 2 eexists. split; [reflexivity|]. simpl. split; discriminate.
  - do 2 eexists. split; [reflexivity|]. simpl. split; reflexivity.
Qed.

(** [send_plugin_notification] when the notification's own plugin raises. *)
Lemma send_plugin_notification_run_failure app ty data recipients n t e :
  plugin_send_outcome ty data recipients n t = Some e ->
  send_plugin_notification app ty data recipients n t
  = let slug := Plugin.slug (Notification.plugin n) in
    let f := "lemur.notifications.messaging.send_plugin_notification" in
    (Ok RNone,
     ((after_plugin_send ty data recipients n t ++ [LoggerError f ty slug])
      ++ [SentryCapture e])
     ++ [MetricsSend FAILURE_METRIC_STATUS ty slug]).
Proof.
  unfold plugin_send_outcome, after_plugin_send. intros H.
  unfold send_plugin_notification, try_except, bind, emit, plugin_send, ret.
  cbv zeta. now rewrite H.
Qed.

(** [send_plugin_notification] through the email plugin that returns. *)
Lemma send_plugin_notification_run_email app ty data recipients n t :
  Plugin.slug (Notification.plugin n) = "email-notification" ->
  plugin_send_outcome ty data recipients n t = None ->
  send_plugin_notification app ty data recipients n t
  = (Ok RTrue,
     after_plugin_send ty data recipients n t
     ++ [MetricsSend SUCCESS_METRIC_STATUS ty "email-notification"]).
Proof.
  unfold plugin_send_outcome, after_plugin_send. intros Hslug H.
  unfold send_plugin_notification, try_except, bind, emit, plugin_send, ret.
  cbv zeta. rewrite H, Hslug. reflexivity.
Qed.

(** [send_plugin_notification] through another plugin that returns: the
    default notification follows, and decides. *)
Lemma send_plugin_notification_run_secondary app ty data recipients n t r t2 :
  Plugin.slug (Notification.plugin n) <> "email-notification" ->
  plugin_send_outcome ty data recipients n t = None ->
  send_default_notification app ty data recipients (Some (Notification.options n))
    (after_plugin_send ty data recipients n t) = (Ok r, t2) ->
  send_plugin_notification app ty data recipients n t
  = (Ok r,
     t2 ++ [MetricsSend
              (if truthy r then SUCCESS_METRIC_STATUS else FAILURE_METRIC_STATUS)
              ty (Plugin.slug (Notification.plugin n))]).
Proof.
  unfold plugin_send_outcome, after_plugin_send. intros Hslug H Hdef.
  apply String.eqb_neq in Hslug.
  unfold send_plugin_notification, try_except, bind, emit, plugin_send, ret.
  cbv zeta. rewrite H, Hslug. cbn [negb].
  unfold bind in Hdef. rewrite Hdef. destruct r; reflexivity.
Qed.

(** With plugins that return or raise an instance of [Exception],
    [send_default_notification] and [send_plugin_notification] return.
    What they return is [True] exactly when the send went through (for
    a plugin other than email: the plugin's send and the default send
    after it), and [None], which is falsy, when a send raised. *)
Lemma dispatch_never_raises app ty data targets opts n t :
  (exists r t',
     send_default_notification app ty data targets opts t = (Ok r, t') /\
     (truthy r = true <-> default_send_outcome app ty data targets opts t = None)) /\
  (exists r t',
     send_plugin_notification app ty data targets n t = (Ok r, t') /\
     (truthy r = true <->
      plugin_send_outcome ty data targets n t = None /\
      (Plugin.slug (Notification.plugin n) <> "email-notification" ->
       default_send_outcome app ty data targets (Some (Notification.options n))
         (after_plugin_send ty data targets n t) = None))).
Proof.
  split; [apply send_default_notification_returns|].
  destruct (plugin_send_outcome ty data targets n t) as [e|] eqn:Hp.
  - rewrite (send_plugin_notification_run_failure _ _ _ _ _ _ _ Hp). cbv zeta.
    do 2 eexists. split; [reflexivity|]. simpl.
    split; [discriminate|intros [H _]; discriminate].
  - destruct (String.eqb_spec (Plugin.slug (Notification.plugin n)) "email-notification")
      as [Hs|Hs].
    + rewrite (send_plugin_notification_run_email _ _ _ _ _ _ Hs Hp).
      do 2 eexists. split; [reflexivity|]. simpl. split; [|reflexivity].
      intros _. split; [reflexivity|]. intros Hne. now destruct Hne.
    + destruct (send_default_notification_returns app ty data targets
                  (Some (Notification.options n))
                  (after_plugin_send ty data targets n t)) as (r & t2 & Hd & Hr).
      rewrite (send_plugin_notification_run_secondary _ _ _ _ _ _ _ _ Hs Hp Hd).
      do 2 eexists. split; [reflexivity|]. rewrite Hr. split.
      * intros H. split; [reflexivity|]. intros _. exact H.
      * intros [_ H]. exact (H Hs).
Qed.

(** C4: when the notification's plugin is not the email plugin and its
    send returns, the default notification is sent next, with the same
    event type, data and recipients (and the notification's options);
    the send to the default plugin is in the trace, and the call hands
    back what the default notification handed back: [True] exactly when
    that second send went through. *)
Theorem secondary_email_send app ty data recipients n t :
  Plugin.slug (Notification.plugin n) <> "email-notification" ->
  plugin_send_outcome ty data recipients n t = None ->
  exists r t2,
    send_default_notification app ty data recipients (Some (Notification.options n))
      (after_plugin_send ty data recipients n t) = (Ok r, t2) /\
    In (PluginSend (Plugin.slug (default_plugin app)) ty data recipients
          (Some (Notification.options n))) t2 /\
    send_plugin_notification app ty data recipients n t
    = (Ok r,
       t2 ++ [MetricsSend
                (if truthy r then SUCCESS_METRIC_STATUS else FAILURE_METRIC_STATUS)
                ty (Plugin.slug (Notification.plugin n))]) /\
    (truthy r = true <->
     default_send_outcome app ty data recipients (Some (Notification.options n))
       (after_plugin_send ty data recipients n t) = None).
Proof.
  intros Hs Hp.
  destruct (send_default_notification_returns app ty data recipients
              (Some (Notification.options n))
              (after_plugin_send ty data recipients n t)) as (r & t2 & Hd & Hr).
  exists r, t2. split; [exact Hd|]. split; [|split].
  - rewrite send_default_notification_run in Hd. cbv zeta in Hd.
    destruct (default_send_outcome _ _ _ _ _ _); injection Hd as _ <-;
      rewrite !in_app_iff; simpl; tauto.
  - now apply send_plugin_notification_run_secondary.
  - exact Hr.
Qed.

Lemma sends_app (t l : trace) : sends (t ++ l) = sends t ++ sends l.
Proof. apply filter_app. Qed.

Lemma filter_none {A} (f : A -> bool) (l : list A) :
  (forall x, In x l -> f x = false) -> List.filter f l = [].
Proof.
  induction l as [|a l IH]; intros H; simpl; [reflexivity|].
  rewrite (H a) by now left. apply IH. intros x Hx. apply H. now right.
Qed.

Lemma send_default_notification_sends app ty data targets opts t :
  sends (snd (send_default_notification app ty data targets opts t))
  = sends t ++ [PluginSend (Plugin.slug (default_plugin app)) ty data targets opts].
Proof.
  rewrite send_default_notification_run. cbv zeta.
  destruct (default_send_outcome app ty data targets opts t);
    cbn [snd]; rewrite !sends_app; simpl; now rewrite ?app_nil_r.
Qed.

(** With nothing active and configured, the fallback is the default
    notification to the owner and the security team. *)
Lemma fallback_without_active app data notifications ty security_email :
  (forall n, In n notifications -> active_configured n = false) ->
  Config.LEMUR_SECURITY_TEAM_EMAIL (App.config app) = Some security_email ->
  send_plugin_notification_with_email_fallback app data notifications ty
  = send_default_notification app ty
      (MsgOne (set_security_email data (Some security_email)))
      (CertData.owner data :: security_email) None.
Proof.
  intros Hnone Hsec. unfold send_plugin_notification_with_email_fallback.
  rewrite (filter_none _ _ Hnone), Hsec. reflexivity.
Qed.

(** C7: when none of the notifications is both active and configured
    and the security-team list is set in the configuration, the fallback
    makes one send, through the default plugin, and its targets are the
    owner followed by the security-team list; so do
    [send_revocation_notification] on a certificate and
    [send_pending_failure_notification] on a pending certificate that
    have notify on and no such notification. *)
Theorem fallback_to_owner_and_security_team app security_email t :
  Config.LEMUR_SECURITY_TEAM_EMAIL (App.config app) = Some security_email ->
  (forall data notifications ty,
     (forall n, In n notifications -> active_configured n = false) ->
     sends (snd (send_plugin_notification_with_email_fallback app data notifications ty t))
     = sends t
       ++ [PluginSend (Plugin.slug (default_plugin app)) ty
             (MsgOne (set_security_email data (Some security_email)))
             (CertData.owner data :: security_email) None]) /\
  (forall c,
     Certificate.notify c = true ->
     (forall n, In n (Certificate.notifications c) -> active_configured n = false) ->
     sends (snd (send_revocation_notification app c t))
     = sends t
       ++ [PluginSend (Plugin.slug (default_plugin app)) "revocation"
             (MsgOne (set_security_email
                        (certificate_notification_output_schema_dump c)
                        (Some security_email)))
             (Certificate.owner c :: security_email) None]) /\
  (forall p,
     PendingCertificate.notify p = true ->
     (forall n, In n (PendingCertificate.notifications p) ->
                active_configured n = false) ->
     sends (snd (send_pending_failure_notification app p t))
     = sends t
       ++ [PluginSend (Plugin.slug (default_plugin app)) "failed"
             (MsgOne (set_security_email
                        (pending_certificate_output_schema_dump p)
                        (Some security_email)))
             (PendingCertificate.owner p :: security_email) None]).
Proof.
  intros Hsec. split; [|split].
  - intros data notifications ty Hnone.
    rewrite (fallback_without_active _ _ _ _ _ Hnone Hsec).
    apply send_default_notification_sends.
  - intros c Hnotify Hnone. unfold send_revocation_notification.
    rewrite Hnotify. cbn [negb].
    rewrite (fallback_without_active _ _ _ _ _ Hnone Hsec).
    apply send_default_notification_sends.
  - intros p Hnotify Hnone. unfold send_pending_failure_notification.
    rewrite Hnotify. cbn [negb].
    rewrite (fallback_without_active _ _ _ _ _ Hnone Hsec).
    apply send_default_notification_sends.
Qed.

(** A loop whose body goes on to the next element over [pre] is the
    loop over what follows [pre]. *)
Lemma for_loop_skip {S A R} (pre l : list A) (body : A -> M S (option R)) s :
  (forall x, In x pre -> body x = ret None) ->
  for_loop (pre ++ l) body s = for_loop l body s.
Proof.
  induction pre as [|a pre IH]; intros H; [reflexivity|].
  simpl. unfold bind. rewrite (H a) by now left. unfold ret at 1.
  apply IH. intros x Hx. apply H. now right.
Qed.

(** With a first notification that qualifies (active and configured;
    for the rotation also rotation-enabled), the fallback and
    [send_rotation_notification] are the dispatch of that notification
    alone; the notifications after it play no part. *)
Lemma first_qualifying_only app ty data c pre n post t :
  ((forall m, In m pre -> active_configured m = false) ->
   active_configured n = true ->
   send_plugin_notification_with_email_fallback app data (pre ++ n :: post) ty t
   = dispatch_one app ty
       (set_security_email data (Config.LEMUR_SECURITY_TEAM_EMAIL (App.config app)))
       (Config.LEMUR_SECURITY_TEAM_EMAIL (App.config app)) n t) /\
  (Certificate.notify c = true ->
   Certificate.notifications c = pre ++ n :: post ->
   (forall m, In m pre -> rotation_enabled m = false) ->
   rotation_enabled n = true ->
   send_rotation_notification app c t
   = dispatch_one app "rotation"
       (set_security_email (certificate_notification_output_schema_dump c)
          (Config.LEMUR_SECURITY_TEAM_EMAIL (App.config app)))
       (Some []) n t).
Proof.
  split.
  - intros Hpre Hn. unfold send_plugin_notification_with_email_fallback.
    rewrite filter_app, (filter_none _ _ Hpre). cbn [List.filter List.app].
    rewrite Hn. cbn [truthy_list negb for_loop].
    unfold dispatch_one, bind, lift, ret. cbn [CertData.security_email set_security_email].
    destruct (Plugin.get_recipients _ _ _) as [recipients|e]; [|reflexivity].
    destruct (send_plugin_notification _ _ _ _ _ _) as [[r|e] t']; reflexivity.
  - intros Hnotify Hsplit Hpre Hn. unfold send_rotation_notification.
    rewrite Hnotify, Hsplit. cbn [negb]. unfold bind at 1.
    rewrite for_loop_skip
      by (intros m Hm; now rewrite (Hpre m Hm)).
    cbn [for_loop]. rewrite Hn.
    unfold dispatch_one, bind, lift, ret.
    destruct (Plugin.get_recipients _ _ _) as [recipients|e]; [|reflexivity].
    destruct (send_plugin_notification _ _ _ _ _ _) as [[r|e] t']; reflexivity.
Qed.

(** ** Rotation *)

(** [rotate_certificate] completes when the endpoint has a certificate
    and the source plugin's [update_endpoint] returns. *)
Lemma rotate_certificate_completes endpoint new_cert s old_cert :
  Deployment.Endpoint.certificate (Deployment.Store.endpoints s endpoint)
  = Some old_cert ->
  Deployment.SourcePlugin.update_endpoint
    (Deployment.Endpoint.source (Deployment.Store.endpoints s endpoint))
    (Deployment.Endpoint.name (Deployment.Store.endpoints s endpoint))
    (Deployment.Store.certificates s new_cert) = None ->
  exists s', Deployment.rotate_certificate endpoint new_cert s = (Ok tt, s').
Proof.
  intros Hold Hup. eexists.
  unfold Deployment.rotate_certificate, bind, Deployment.update_endpoint.
  rewrite Hold, Hup. reflexivity.
Qed.

(** C10: once [rotate_certificate endpoint new_cert] has completed, the
    endpoint's certificate is [new_cert] and the certificate it had
    before has notify off; the row of the endpoint and the row of that
    certificate hold these objects as they now are; and that is all.
    The endpoint keeps its name and its source; the old certificate
    keeps its id, name, owner, [not_after], expired and revoked flags,
    authorities and notifications; every other endpoint and every other
    certificate (the new one too, unless it is the old one) is as it
    was; and no other row is written. *)
Theorem rotate_certificate_effect endpoint new_cert s s' :
  Deployment.rotate_certificate endpoint new_cert s = (Ok tt, s') ->
  exists old_cert,
    Deployment.Endpoint.certificate (Deployment.Store.endpoints s endpoint)
    = Some old_cert /\
    (* what changes *)
    Deployment.Endpoint.certificate (Deployment.Store.endpoints s' endpoint)
    = Some new_cert /\
    Certificate.notify (Deployment.Store.certificates s' old_cert) = false /\
    (* what is persisted *)
    Deployment.Store.db_endpoints s' endpoint
    = Some (Deployment.Store.endpoints s' endpoint) /\
    Deployment.Store.db_certificates s' old_cert
    = Some (Deployment.Store.certificates s' old_cert) /\
    (* the endpoint's other fields *)
    Deployment.Endpoint.name (Deployment.Store.endpoints s' endpoint)
    = Deployment.Endpoint.name (Deployment.Store.endpoints s endpoint) /\
    Deployment.Endpoint.source (Deployment.Store.endpoints s' endpoint)
    = Deployment.Endpoint.source (Deployment.Store.endpoints s endpoint) /\
    (* the old certificate's other fields *)
    Certificate.id (Deployment.Store.certificates s' old_cert)
    = Certificate.id (Deployment.Store.certificates s old_cert) /\
    Certificate.name (Deployment.Store.certificates s' old_cert)
    = Certificate.name (Deployment.Store.certificates s old_cert) /\
    Certificate.owner (Deployment.Store.certificates s' old_cert)
    = Certificate.owner (Deployment.Store.certificates s old_cert) /\
    Certificate.not_after (Deployment.Store.certificates s' old_cert)
    = Certificate.not_after (Deployment.Store.certificates s old_cert) /\
    Certificate.expired (Deployment.Store.certificates s' old_cert)
    = Certificate.expired (Deployment.Store.certificates s old_cert) /\
    Certificate.revoked (Deployment.Store.certificates s' old_cert)
    = Certificate.revoked (Deployment.Store.certificates s old_cert) /\
    Certificate.root_authority_id (Deployment.Store.certificates s' old_cert)
    = Certificate.root_authority_id (Deployment.Store.certificates s old_cert) /\
    Certificate.authority_id (Deployment.Store.certificates s' old_cert)
    = Certificate.authority_id (Deployment.Store.certificates s old_cert) /\
    Certificate.notifications (Deployment.Store.certificates s' old_cert)
    = Certificate.notifications (Deployment.Store.certificates s old_cert) /\
    (* every other object and every other row *)
    (forall e, e <> endpoint ->
       Deployment.Store.endpoints s' e = Deployment.Store.endpoints s e) /\
    (forall c, c <> old_cert ->
       Deployment.Store.certificates s' c = Deployment.Store.certificates s c) /\
    (forall e, e <> endpoint ->
       Deployment.Store.db_endpoints s' e = Deployment.Store.db_endpoints s e) /\
    (forall c, c <> old_cert ->
       Deployment.Store.db_certificates s' c = Deployment.Store.db_certificates s c).
Proof.
  unfold Deployment.rotate_certificate, bind, Deployment.update_endpoint.
  destruct (Deployment.Endpoint.certificate (Deployment.Store.endpoints s endpoint))
    as [old_cert|] eqn:Hold;
    destruct (Deployment.SourcePlugin.update_endpoint _ _ _);
    cbn; try discriminate.
  intros H. injection H as <-. exists old_cert. cbn.
  rewrite !fn_lookup_insert. cbn.
  repeat split; intros x Hx; now rewrite fn_lookup_insert_ne.
Qed.

Lemma rotate_certificate_effect_witness :
  exists s',
    Deployment.rotate_certificate 7 2 sample_store = (Ok tt, s') /\
    Deployment.Endpoint.certificate (Deployment.Store.endpoints s' 7) = Some 2 /\
    Deployment.Endpoint.name (Deployment.Store.endpoints s' 7) = "elb-frontend" /\
    Certificate.notify (Deployment.Store.certificates s' 1) = false /\
    Certificate.owner (Deployment.Store.certificates s' 1) = "owner@example.com" /\
    Certificate.notify (Deployment.Store.certificates s' 2) = true.
Proof.
  destruct (rotate_certificate_completes 7 2 sample_store 1 eq_refl eq_refl)
    as [s' Hs'].
  exists s'. split; [exact Hs'|].
  destruct (rotate_certificate_effect 7 2 sample_store s' Hs')
    as (old_cert & Hold & Hnew & Hnotify & _ & _ & Hname & _ & _ & _ & Howner & _ & _
        & _ & _ & _ & _ & _ & Hframe & _).
  injection Hold as <-. split; [exact Hnew|]. split; [exact Hname|].
  split; [exact Hnotify|]. split; [exact Howner|].
  rewrite Hframe by discriminate. reflexivity.
Defined.

(** ** The properties at sample inputs *)


Lemma invalid_unit_raises_witness :
  needs_expiration_notification 0 cert_fortnights
  = Raise (Exception "Invalid base unit for expiration interval: fortnights") /\
  exists e,
    get_certificates 0 [cert_abc; cert_fortnights] None = Raise e /\
    get_eligible_certificates 0 [cert_abc; cert_fortnights] None = Raise e /\
    forall app t,
      send_expiration_notifications app 0 [cert_abc; cert_fortnights] None t
      = (Raise e, t).
Proof.
  assert (Hin : In fortnights_notification (Certificate.notifications cert_fortnights))
    by (simpl; now left).
  destruct (invalid_unit_raises 0 cert_fortnights fortnights_notification
              Hin eq_refl eq_refl) as (_ & Hfirst & Hscan).
  split.
  - apply (Hfirst [] []); [reflexivity|]. intros m [].
  - apply Hscan. vm_compute. right. now left.
Defined.

Lemma flagged_never_eligible_witness :
  get_certificates 0 [cert_abc; cert_revoked] None = Ok [cert_abc] /\
  ~ In cert_revoked [cert_abc].
Proof.
  assert (E : get_certificates 0 [cert_abc; cert_revoked] None = Ok [cert_abc])
    by (vm_compute; reflexivity).
  split; [exact E|].
  apply (proj1 (flagged_never_eligible 0 [cert_abc; cert_revoked] None default_config
                  cert_revoked (or_intror (or_introl eq_refl)))
           [cert_abc] E).
Defined.

Lemma secondary_email_send_witness :
  exists t2,
    send_default_notification sample_app "rotation" (MsgMany [])
      ["ops@example.com"] (Some (Notification.options slack_notification))
      (after_plugin_send "rotation" (MsgMany []) ["ops@example.com"]
         slack_notification []) = (Ok RTrue, t2) /\
    send_plugin_notification sample_app "rotation" (MsgMany []) ["ops@example.com"]
      slack_notification []
    = (Ok RTrue, t2 ++ [MetricsSend SUCCESS_METRIC_STATUS "rotation" "slack-notification"]).
Proof.
  destruct (secondary_email_send sample_app "rotation" (MsgMany [])
              ["ops@example.com"] slack_notification [])
    as (r & t2 & Hd & _ & Hp & Hr).
  - discriminate.
  - reflexivity.
  - assert (Hr' : truthy r = true) by (apply Hr; reflexivity).
    destruct r; [|discriminate]. exists t2. split; [exact Hd|exact Hp].
Defined.

Lemma fallback_to_owner_and_security_team_witness :
  sends (snd (send_revocation_notification sample_app cert_bare []))
  = [PluginSend "email-notification" "revocation"
       (MsgOne (CertData.mk "bare" "owner@example.com" (Some ["security@example.com"])))
       ["owner@example.com"; "security@example.com"] None].
Proof.
  apply (proj1 (proj2 (fallback_to_owner_and_security_team sample_app
                        ["security@example.com"] [] eq_refl)) cert_bare eq_refl).
  intros n [].
Defined.

Lemma first_qualifying_only_witness :
  send_plugin_notification_with_email_fallback sample_app
    (certificate_notification_output_schema_dump cert_two)
    ([] ++ slack_notification :: [email_notification]) "revocation" []
  = dispatch_one sample_app "revocation"
      (CertData.mk "two" "owner@example.com" (Some ["security@example.com"]))
      (Some ["security@example.com"]) slack_notification [] /\
  send_rotation_notification sample_app cert_two []
  = dispatch_one sample_app "rotation"
      (CertData.mk "two" "owner@example.com" (Some ["security@example.com"]))
      (Some []) slack_notification [].
Proof.
  destruct (first_qualifying_only sample_app "revocation"
              (certificate_notification_output_schema_dump cert_two) cert_two
              [] slack_notification [email_notification] []) as [Hfallback _].
  destruct (first_qualifying_only sample_app "rotation"
              (certificate_notification_output_schema_dump cert_two) cert_two
              [] slack_notification [email_notification] []) as [_ Hrotation].
  split.
  - apply Hfallback; [intros m []|reflexivity].
  - apply Hrotation; [reflexivity|reflexivity|intros m []|reflexivity].
Defined.

(** * Further properties *)

(** ** Grouping by notification *)

Lemma dict_append_filed n c d i x :
  filed_under (dict_append n c d) i x <->
  filed_under d i x \/ (i = Notification.id n /\ x = c).
Proof.
  unfold filed_under. induction d as [|[k v] d IH]; simpl.
  - split.
    + intros (k & v & [E|[]] & Hi & Hx). injection E as <- <-.
      destruct Hx as [<-|[]]. right. auto.
    + intros [(k & v & [] & _)|[-> ->]].
      exists n, [c]. simpl. auto.
  - destruct (Z.eqb_spec (Notification.id k) (Notification.id n)) as [E|E].
    + split.
      * intros (k' & v' & [Hkv|Hkv] & Hi & Hx).
        -- injection Hkv as <- <-. apply in_app_iff in Hx as [Hx|[<-|[]]].
           ++ left. exists k, v. simpl. auto.
           ++ right. split; congruence.
        -- left. exists k', v'. simpl. auto.
      * intros [(k' & v' & [Hkv|Hkv] & Hi & Hx)|[-> ->]].
        -- injection Hkv as <- <-. exists k, (v ++ [c]). simpl.
           rewrite in_app_iff. auto.
        -- exists k', v'. simpl. auto.
        -- exists k, (v ++ [c]). simpl. rewrite in_app_iff. simpl. auto.
    + split.
      * intros (k' & v' & [Hkv|Hkv] & Hi & Hx).
        -- injection Hkv as <- <-. left. exists k, v. simpl. auto.
        -- destruct (proj1 IH) as [(k2 & v2 & H2 & Hi2 & Hx2)|H2].
           { exists k', v'. auto. }
           ++ left. exists k2, v2. simpl. auto.
           ++ right. exact H2.
      * intros [(k' & v' & [Hkv|Hkv] & Hi & Hx)|H2].
        -- injection Hkv as <- <-. exists k, v. simpl. auto.
        -- destruct (proj2 IH) as (k2 & v2 & H2 & Hi2 & Hx2).
           { left. exists k', v'. auto. }
           exists k2, v2. simpl. auto.
        -- destruct (proj2 IH (or_intror H2)) as (k2 & v2 & H3 & Hi2 & Hx2).
           exists k2, v2. simpl. auto.
Qed.

Lemma dict_append_keys n c d :
  dict_keys (dict_append n c d)
  = if existsb (Z.eqb (Notification.id n)) (dict_keys d)
    then dict_keys d
    else dict_keys d ++ [Notification.id n].
Proof.
  unfold dict_keys. induction d as [|[k v] d IH]; simpl; [reflexivity|].
  rewrite (Z.eqb_sym (Notification.id n)).
  destruct (Z.eqb (Notification.id k) (Notification.id n)); simpl; [reflexivity|].
  rewrite IH. now destruct (existsb _ _).
Qed.

Lemma dict_append_NoDup n c d :
  List.NoDup (dict_keys d) -> List.NoDup (dict_keys (dict_append n c d)).
Proof.
  intros H. rewrite dict_append_keys.
  destruct (existsb (Z.eqb (Notification.id n)) (dict_keys d)) eqn:E; [exact H|].
  apply List.NoDup_app.
  - exact H.
  - constructor; [intros []|constructor].
  - intros x Hx [<-|[]].
    assert (existsb (Z.eqb (Notification.id n)) (dict_keys d) = true).
    { apply existsb_exists. exists (Notification.id n).
      split; [exact Hx|apply Z.eqb_refl]. }
    congruence.
Qed.

Lemma dict_append_nonempty n c d :
  (forall k v, In (k, v) d -> v <> []) ->
  forall k v, In (k, v) (dict_append n c d) -> v <> [].
Proof.
  induction d as [|[k0 v0] d IH]; simpl; intros H k v Hkv.
  - destruct Hkv as [E|[]]. injection E as <- <-. discriminate.
  - destruct (Z.eqb (Notification.id k0) (Notification.id n)).
    + destruct Hkv as [E|Hkv].
      * injection E as <- <-. now destruct v0.
      * eapply H. right. exact Hkv.
    + destruct Hkv as [E|Hkv].
      * injection E as <- <-. eapply H. now left.
      * eapply IH; [|exact Hkv]. intros k' v' H'. eapply H. right. exact H'.
Qed.

Lemma fold_dict_append_filed c due d i x :
  filed_under (fold_left (fun d n => dict_append n c d) due d) i x <->
  filed_under d i x \/ (x = c /\ exists n, In n due /\ Notification.id n = i).
Proof.
  revert d. induction due as [|n due IH]; intros d; simpl.
  - split; [auto|]. intros [H|(_ & n & [] & _)]. exact H.
  - rewrite IH, dict_append_filed. split.
    + intros [[H|[-> ->]]|(-> & m & Hm & Hi)]; [auto|right|right].
      * split; [reflexivity|]. exists n. auto.
      * split; [reflexivity|]. exists m. auto.
    + intros [H|(-> & m & [<-|Hm] & Hi)]; [auto|left; right|right].
      * auto.
      * split; [reflexivity|]. exists m. auto.
Qed.

Lemma fold_dict_append_NoDup c due d :
  List.NoDup (dict_keys d) ->
  List.NoDup (dict_keys (fold_left (fun d n => dict_append n c d) due d)).
Proof.
  revert d. induction due as [|n due IH]; intros d H; simpl; [exact H|].
  apply IH. now apply dict_append_NoDup.
Qed.

Lemma fold_dict_append_nonempty c due d :
  (forall k v, In (k, v) d -> v <> []) ->
  forall k v, In (k, v) (fold_left (fun d n => dict_append n c d) due d) -> v <> [].
Proof.
  revert d. induction due as [|n due IH]; intros d H; simpl; [exact H|].
  apply IH. now apply dict_append_nonempty.
Qed.

Lemma get_eligible_loop_spec now certs d :
  forallb (check_returns now) certs = true ->
  exists items,
    get_eligible_loop now certs d = Ok items /\
    (forall i x,
       filed_under items i x <->
       filed_under d i x \/ (In x certs /\ due_for now x i)) /\
    (List.NoDup (dict_keys d) -> List.NoDup (dict_keys items)) /\
    ((forall k v, In (k, v) d -> v <> []) ->
     forall k v, In (k, v) items -> v <> []).
Proof.
  revert d. induction certs as [|c certs IH]; intros d Hall; simpl.
  - exists d. split; [reflexivity|]. split; [|auto].
    intros i x. split; [auto|]. intros [H|([] & _)]. exact H.
  - simpl in Hall. apply andb_true_iff in Hall as [Hc Hall].
    unfold check_returns in Hc.
    destruct (needs_expiration_notification now c) as [due|e] eqn:Hdue;
      [|discriminate].
    destruct (IH (fold_left (fun d n => dict_append n c d) due d) Hall)
      as (items & Hrun & Hfiled & Hnodup & Hne).
    exists items. split; [exact Hrun|]. split; [|split].
    + intros i x. rewrite Hfiled, fold_dict_append_filed. unfold due_for. split.
      * intros [[H|(-> & n & Hn & Hi)]|[Hx Hd]]; [auto|right|right].
        -- split; [now left|]. exists due, n. auto.
        -- split; [now right|exact Hd].
      * intros [H|([<-|Hx] & Hd)]; [auto|left; right|right; auto].
        destruct Hd as (due' & n & E & Hn & Hi).
        rewrite Hdue in E. injection E as <-.
        split; [reflexivity|]. exists n. auto.
    + intros H. apply Hnodup. now apply fold_dict_append_NoDup.
    + intros H. apply Hne. now apply fold_dict_append_nonempty.
Qed.

Lemma has_due_check_returns now c : has_due now c = true -> check_returns now c = true.
Proof.
  unfold has_due, check_returns.
  now destruct (needs_expiration_notification now c).
Qed.

(** X1: whenever [get_certificates] returns, so does
    [get_eligible_certificates]; a certificate is filed under a
    notification exactly when it is one of the certificates returned
    and that notification is due for it, so that nothing is lost and
    nothing is invented; no notification is a key twice and no list of
    certificates is empty. *)
Theorem get_eligible_certificates_grouping now table exclude certs :
  get_certificates now table exclude = Ok certs ->
  exists items,
    get_eligible_certificates now table exclude = Ok items /\
    (forall i c, filed_under items i c <-> In c certs /\ due_for now c i) /\
    List.NoDup (dict_keys items) /\
    (forall k v, In (k, v) items -> v <> []).
Proof.
  intros H. unfold get_eligible_certificates. rewrite H.
  assert (Hall : forallb (check_returns now) certs = true).
  { apply get_certificates_ok_inv in H as [_ ->]. apply forallb_forall.
    intros c Hc. apply filter_In in Hc as [_ Hc]. now apply has_due_check_returns. }
  destruct (get_eligible_loop_spec now certs [] Hall)
    as (items & Hrun & Hfiled & Hnodup & Hne).
  exists items. split; [exact Hrun|]. split; [|split].
  - intros i c. rewrite Hfiled. split; [|auto].
    intros [(k & v & [] & _)|Hc]. exact Hc.
  - apply Hnodup. constructor.
  - apply Hne. intros k v [].
Qed.

Lemma get_eligible_certificates_grouping_witness :
  exists items,
    get_eligible_certificates 0 [cert_abc; cert_test] None = Ok items /\
    filed_under items 2 cert_test.
Proof.
  assert (E : get_certificates 0 [cert_abc; cert_test] None = Ok [cert_abc; cert_test])
    by (vm_compute; reflexivity).
  destruct (get_eligible_certificates_grouping 0 [cert_abc; cert_test] None _ E)
    as (items & Hrun & Hfiled & _).
  exists items. split; [exact Hrun|]. apply Hfiled. split.
  - simpl. auto.
  - exists [two_weeks_notification], two_weeks_notification.
    split; [vm_compute; reflexivity|]. split; [now left|reflexivity].
Defined.

(** ** Counting the expiration sends *)

Lemma send_plugin_notification_returns app ty data recipients n t :
  exists r t', send_plugin_notification app ty data recipients n t = (Ok r, t').
Proof.
  destruct (plugin_send_outcome ty data recipients n t) as [e|] eqn:Hp.
  - rewrite (send_plugin_notification_run_failure _ _ _ _ _ _ _ Hp). eauto.
  - destruct (String.eqb_spec (Plugin.slug (Notification.plugin n)) "email-notification")
      as [Hs|Hs].
    + rewrite (send_plugin_notification_run_email _ _ _ _ _ _ Hs Hp). eauto.
    + destruct (send_default_notification_returns app ty data recipients
                  (Some (Notification.options n))
                  (after_plugin_send ty data recipients n t)) as (r & t2 & Hd & _).
      rewrite (send_plugin_notification_run_secondary _ _ _ _ _ _ _ _ Hs Hp Hd). eauto.
Qed.

Lemma send_expiration_loop_counts app items success failure t :
  (forall k v, In (k, v) items -> is_ok (recipients_for k) = true) ->
  exists success' failure' t',
    send_expiration_loop app items success failure t = (Ok (success', failure'), t') /\
    success <= success' /\ failure <= failure' /\
    success' + failure' = success + failure + total_recipients items.
Proof.
  revert success failure t.
  induction items as [|[n certs] items IH]; intros success failure t Hok; simpl.
  - exists success, failure, t. unfold ret. repeat split; lia.
  - assert (Hn : is_ok (recipients_for n) = true) by (eapply Hok; now left).
    assert (Hrest : forall k v, In (k, v) items -> is_ok (recipients_for k) = true)
      by (intros k v H; eapply Hok; right; exact H).
    unfold recipients_for in *. unfold bind at 1, lift.
    destruct (Plugin.get_recipients _ _ _) as [recipients|e]; [|discriminate].
    unfold bind.
    destruct (send_plugin_notification_returns app "expiration"
                (MsgMany (map certificate_notification_output_schema_dump certs))
                recipients n t) as (r & t1 & Hsend).
    rewrite Hsend. destruct (truthy r).
    + destruct (IH (success + Z.of_nat (length recipients)) failure t1 Hrest)
        as (s' & f' & t' & Hrun & Hs & Hf & Hsum).
      exists s', f', t'. split; [exact Hrun|]. lia.
    + destruct (IH success (failure + Z.of_nat (length recipients)) t1 Hrest)
        as (s' & f' & t' & Hrun & Hs & Hf & Hsum).
      exists s', f', t'. split; [exact Hrun|]. lia.
Qed.

(** X2: when the scan returns its groups and every group's plugin
    hands back its recipients, [send_expiration_notifications] returns a
    pair of counts, neither negative, that add up to the recipients of
    all the groups: every recipient is counted once, as a success or as
    a failure. *)
Theorem send_expiration_notifications_counts app now table exclude items t :
  get_eligible_certificates now table exclude = Ok items ->
  (forall k v, In (k, v) items -> is_ok (recipients_for k) = true) ->
  exists success failure t',
    send_expiration_notifications app now table exclude t
    = (Ok (success, failure), t') /\
    0 <= success /\ 0 <= failure /\
    success + failure = total_recipients items.
Proof.
  intros Hitems Hok. unfold send_expiration_notifications, bind, lift.
  rewrite Hitems.
  destruct (send_expiration_loop_counts app items 0 0 t Hok)
    as (s & f & t' & Hrun & Hs & Hf & Hsum).
  exists s, f, t'. split; [exact Hrun|]. lia.
Qed.

Lemma send_expiration_notifications_counts_witness :
  exists t',
    send_expiration_notifications sample_app 0 [cert_via_test; cert_abc] None []
    = (Ok (1, 0), t').
Proof.
  assert (E : exists items,
             get_eligible_certificates 0 [cert_via_test; cert_abc] None = Ok items /\
             (forall k v, In (k, v) items -> is_ok (recipients_for k) = true) /\
             total_recipients items = 1).
  { eexists. split; [vm_compute; reflexivity|]. split; [|vm_compute; reflexivity].
    intros k v [H|[H|[]]]; injection H as <- _; vm_compute; reflexivity. }
  destruct E as (items & Hitems & Hok & Htotal).
  destruct (send_expiration_notifications_counts sample_app 0 [cert_via_test; cert_abc]
              None items [] Hitems Hok) as (s & f & t' & Hrun & Hs & Hf & Hsum).
  assert (Hfst : fst (send_expiration_notifications sample_app 0
                        [cert_via_test; cert_abc] None []) = Ok (1, 0))
    by (vm_compute; reflexivity).
  rewrite Hrun in Hfst. cbn in Hfst. injection Hfst as -> ->.
  exists t'. exact Hrun.
Defined.

(** ** Time windows *)

Lemma days_between_window a b k :
  days_between a b = k <->
  a - timedelta_days (k + 1) < b <= a - timedelta_days k.
Proof.
  unfold days_between, timedelta_days, one_day.
  pose proof (Z.div_mod (a - b) 86400000000 ltac:(lia)) as E.
  pose proof (Z.mod_pos_bound (a - b) 86400000000 ltac:(lia)) as B.
  split.
  - intros <-. nia.
  - intros H. symmetry. apply (Z.div_unique_pos _ _ _ (a - b - 86400000000 * k)); lia.
Qed.



(** X3: a certificate that [get_certificates] returns has at most 90
    days left, and exactly 90 only at the one instant 90 days before
    [not_after]; so a notification that triggers for it has an interval
    of at most 90 days: one configured for more never makes a
    certificate eligible. *)
Theorem lookahead_bounds_interval now table exclude certs c :
  get_certificates now table exclude = Ok certs ->
  In c certs ->
  days_remaining now c <= 90 /\
  (days_remaining now c = 90 ->
   Certificate.not_after c = now + timedelta_days 90) /\
  forall n interval factor,
    triggers (days_remaining now c) n ->
    interval_of n = PyInt interval ->
    unit_factor (unit_of n) = Some factor ->
    interval * factor <= 90.
Proof.
  intros H Hc. apply (get_certificates_In _ _ _ _ c) in H. apply H in Hc as [Hq _].
  apply (proj1 (get_certificates_query_In _ _ _ _)) in Hq as (_ & Hmax & _).
  assert (Hle : days_remaining now c <= 90).
  { unfold days_remaining, days_between, timedelta_days, one_day in *.
    apply Z.div_le_upper_bound; lia. }
  split; [exact Hle|]. split.
  - intros E. apply days_between_window in E. unfold timedelta_days in *. lia.
  - intros n interval factor (_ & _ & i & f & Hi & Hf & E) Hi' Hf'.
    assert (i = interval) by congruence. assert (f = factor) by congruence.
    subst. lia.
Qed.

Lemma lookahead_bounds_interval_witness :
  days_remaining 0 cert_test <= 90 /\ 2 * 7 <= 90.
Proof.
  assert (E : get_certificates 0 [cert_abc; cert_test] None = Ok [cert_abc; cert_test])
    by (vm_compute; reflexivity).
  destruct (lookahead_bounds_interval 0 [cert_abc; cert_test] None _ cert_test E)
    as (Hle & _ & Hn).
  - simpl. auto.
  - split; [exact Hle|].
    apply (Hn two_weeks_notification 2 7); [|reflexivity|reflexivity].
    apply matches_triggers. reflexivity.
Defined.

(** ** Authority certificates, further *)

Section Groupby.
Context {A K : Type} (eqb : K -> K -> bool) (key : A -> K).
Hypothesis eqb_eq : forall a b, eqb a b = true <-> a = b.

Lemma groupby_concat (l : list A) : concat (map snd (groupby eqb key l)) = l.
Proof.
  induction l as [|x l IH]; simpl; [reflexivity|].
  destruct (groupby eqb key l) as [|[k g] groups]; simpl in *.
  - now rewrite <- IH.
  - destruct (eqb (key x) k); simpl; now rewrite <- IH.
Qed.

Lemma groupby_groups (l : list A) k g :
  In (k, g) (groupby eqb key l) -> g <> [] /\ forall x, In x g -> key x = k.
Proof using eqb_eq.
  revert k g. induction l as [|x l IH]; simpl; intros k g H; [destruct H|].
  destruct (groupby eqb key l) as [|[k0 g0] groups].
  - destruct H as [E|[]]. injection E as <- <-. split; [discriminate|].
    intros y [<-|[]]. reflexivity.
  - destruct (eqb (key x) k0) eqn:E.
    + apply eqb_eq in E. destruct H as [E'|H].
      * injection E' as <- <-. split; [discriminate|].
        intros y [<-|Hy]; [exact E|]. apply (IH k0 g0); [now left|exact Hy].
      * apply IH. now right.
    + destruct H as [E'|H].
      * injection E' as <- <-. split; [discriminate|].
        intros y [<-|[]]. reflexivity.
      * apply IH. exact H.
Qed.

Lemma groupby_In (l : list A) x :
  In x l <-> exists k g, In (k, g) (groupby eqb key l) /\ In x g.
Proof.
  rewrite <- (groupby_concat l) at 1. rewrite in_concat. split.
  - intros (g & Hg & Hx). apply in_map_iff in Hg as ([k g'] & <- & Hkg).
    exists k, g'. auto.
  - intros (k & g & Hkg & Hx). exists g. split; [|exact Hx].
    apply in_map_iff. exists (k, g). auto.
Qed.
End Groupby.

Lemma fold_insert_lookup (gs : list (Z * list Certificate.t))
    (d : gmap Z (list Certificate.t)) i v :
  fold_left (fun d '(interval, interval_certs) => <[interval := interval_certs]> d)
    gs d !! i = Some v ->
  d !! i = Some v \/ In (i, v) gs.
Proof.
  revert d. induction gs as [|[j w] gs IH]; intros d; simpl; [auto|].
  intros H. apply IH in H as [H|H]; [|auto].
  rewrite lookup_insert in H. destruct (decide (j = i)) as [->|Hne].
  - injection H as <-. auto.
  - auto.
Qed.

Lemma fold_insert_is_Some (gs : list (Z * list Certificate.t))
    (d : gmap Z (list Certificate.t)) i :
  is_Some (d !! i) \/ (exists v, In (i, v) gs) ->
  is_Some (fold_left
             (fun d '(interval, interval_certs) => <[interval := interval_certs]> d)
             gs d !! i).
Proof.
  revert d. induction gs as [|[j w] gs IH]; intros d; simpl.
  - intros [H|(v & [])]. exact H.
  - intros H. apply IH. destruct H as [H|(v & [E|H])].
    + left. rewrite lookup_insert. destruct (decide (j = i)); [eauto|exact H].
    + injection E as -> ->. left. rewrite lookup_insert_eq. eauto.
    + right. eauto.
Qed.

Lemma group_by_interval_lookup now owner_certs by_interval i l :
  group_by_interval now owner_certs by_interval !! i = Some l ->
  by_interval !! i = Some l \/
  (l <> [] /\ forall c, In c l -> In c owner_certs /\ days_remaining now c = i).
Proof.
  unfold group_by_interval. intros H.
  apply fold_insert_lookup in H as [H|H]; [auto|right].
  pose proof (groupby_groups Z.eqb
                (fun x => days_between (Certificate.not_after x) now)
                Z.eqb_eq owner_certs i l H) as [Hne Hkey].
  split; [exact Hne|]. intros c Hc. split; [|now apply Hkey].
  apply (groupby_In Z.eqb (fun x => days_between (Certificate.not_after x) now)).
  exists i, l. auto.
Qed.

Lemma group_by_interval_is_Some now owner_certs by_interval i :
  is_Some (by_interval !! i) \/
  (exists c, In c owner_certs /\ days_remaining now c = i) ->
  is_Some (group_by_interval now owner_certs by_interval !! i).
Proof.
  intros H. unfold group_by_interval. apply fold_insert_is_Some.
  destruct H as [H|(c & Hc & Hd)]; [auto|right].
  apply (groupby_In Z.eqb (fun x => days_between (Certificate.not_after x) now))
    in Hc as (k & g & Hkg & Hx).
  pose proof (groupby_groups Z.eqb _ Z.eqb_eq _ _ _ Hkg) as [_ Hkey].
  specialize (Hkey c Hx). simpl in Hkey. unfold days_remaining in Hd.
  exists g. congruence.
Qed.

Lemma group_by_owner_fold_sound now all groups
    (certificates : gmap string (gmap Z (list Certificate.t))) :
  (forall o oc, In (o, oc) groups ->
     forall c, In c oc -> In c all /\ Certificate.owner c = o) ->
  (forall o m i l, certificates !! o = Some m -> m !! i = Some l ->
     well_filed now all o i l) ->
  forall o m i l,
    fold_left
      (fun certificates '(owner, owner_certs) =>
         <[owner := group_by_interval now owner_certs
                      (default ∅ (certificates !! owner))]> certificates)
      groups certificates !! o = Some m ->
    m !! i = Some l ->
    well_filed now all o i l.
Proof.
  revert certificates. induction groups as [|[o' oc] groups IH];
    intros certificates Hgroups Hinv; simpl; [exact Hinv|].
  apply IH.
  - intros o oc' H. apply Hgroups. now right.
  - intros o m i l Hm Hl. rewrite lookup_insert in Hm.
    destruct (decide (o' = o)) as [->|Hne]; [|now apply (Hinv o m i l)].
    injection Hm as <-.
    apply group_by_interval_lookup in Hl as [Hl|[Hne Hl]].
    + destruct (certificates !! o) as [m|] eqn:E; simpl in Hl.
      * now apply (Hinv o m i l).
      * rewrite lookup_empty in Hl. discriminate.
    + split; [exact Hne|]. intros c Hc. destruct (Hl c Hc) as [Hoc Hd].
      destruct (Hgroups o oc (or_introl eq_refl) c Hoc) as [Hall Ho]. auto.
Qed.

Lemma group_by_owner_fold_keys now groups
    (certificates : gmap string (gmap Z (list Certificate.t))) o i :
  has_key certificates o i \/
  (exists oc c, In (o, oc) groups /\ In c oc /\ days_remaining now c = i) ->
  has_key
    (fold_left
       (fun certificates '(owner, owner_certs) =>
          <[owner := group_by_interval now owner_certs
                       (default ∅ (certificates !! owner))]> certificates)
       groups certificates) o i.
Proof.
  revert certificates. induction groups as [|[o' oc] groups IH];
    intros certificates; simpl.
  - intros [H|(oc & c & [] & _)]. exact H.
  - intros H. apply IH. destruct H as [(m & Hm & Hi)|(oc' & c & [E|Hin] & Hc & Hd)].
    + left. unfold has_key. rewrite lookup_insert.
      destruct (decide (o' = o)) as [->|Hne]; [|eauto].
      eexists. split; [reflexivity|]. apply group_by_interval_is_Some.
      left. now rewrite Hm.
    + injection E as -> ->. left. unfold has_key. rewrite lookup_insert_eq.
      eexists. split; [reflexivity|]. apply group_by_interval_is_Some.
      right. eauto.
    + right. eauto.
Qed.

(** X6: what [get_eligible_authority_certificates] files is sound, and
    its keys are complete: a list under an owner and an interval is not
    empty and holds only certificates that
    [get_expiring_authority_certificates] returned, of that owner, with
    that many days left; and every certificate returned has its owner
    and its interval among the keys (the list there may miss it). *)
Theorem authority_grouping_sound config now table all groups :
  get_expiring_authority_certificates config now table = Ok all ->
  get_eligible_authority_certificates config now table = Ok groups ->
  (forall owner by_interval interval certs,
     groups !! owner = Some by_interval ->
     by_interval !! interval = Some certs ->
     well_filed now all owner interval certs) /\
  (forall c, In c all ->
     has_key groups (Certificate.owner c) (days_remaining now c)).
Proof.
  intros Hall. unfold get_eligible_authority_certificates. rewrite Hall.
  intros H. injection H as <-. unfold group_by_owner. split.
  - apply group_by_owner_fold_sound.
    + intros o oc Hg c Hc.
      pose proof (groupby_groups String.eqb Certificate.owner String.eqb_eq
                    all o oc Hg) as [_ Hkey].
      split; [|now apply Hkey].
      apply (groupby_In String.eqb Certificate.owner). eauto.
    + intros o m i l Hm. rewrite lookup_empty in Hm. discriminate.
  - intros c Hc. apply group_by_owner_fold_keys. right.
    apply (groupby_In String.eqb Certificate.owner) in Hc as (o & oc & Hg & Hx).
    pose proof (groupby_groups String.eqb Certificate.owner String.eqb_eq
                  all o oc Hg) as [_ Hkey].
    rewrite (Hkey c Hx). eauto.
Qed.

Lemma authority_grouping_sound_witness :
  has_key {[ "alice@example.com" := {[ 365 := [ca_3] ]};
             "bob@example.com" := {[ 365 := [ca_2] ]} ]}
    (Certificate.owner ca_1) (days_remaining 0 ca_1).
Proof.
  refine (proj2 (authority_grouping_sound default_config 0 [ca_1; ca_2; ca_3]
                   [ca_1; ca_2; ca_3] _ _ _) ca_1 _).
  - vm_compute. reflexivity.
  - vm_compute. reflexivity.
  - simpl. auto.
Defined.

(** X5: [get_expiring_authority_certificates] raises [ValueError] when
    the configured list of intervals is empty; when it is not, and the
    largest interval plus one is a span of days that Python adds to
    [now] without overflow, it returns exactly the certificates of the
    table that are notify-enabled, not expired, not revoked, have a
    root authority and no authority, and whose days left are one of the
    intervals: the bound on [not_after] in the query leaves none of
    them out. *)
Theorem authority_scan_exact config now table :
  (authority_expiration_intervals config = [] ->
   get_expiring_authority_certificates config now table
   = Raise (ValueError "max() arg is an empty sequence")) /\
  (authority_expiration_intervals config <> [] ->
   (forall m, py_max (authority_expiration_intervals config) = Ok m ->
              no_overflow now (m + 1)) ->
   exists certs,
     get_expiring_authority_certificates config now table = Ok certs /\
     forall c,
       In c certs <->
       In c table /\ eligible_authority c /\
       py_in (days_remaining now c) (authority_expiration_intervals config) = true).
Proof.
  split.
  - intros E. unfold get_expiring_authority_certificates. now rewrite E.
  - intros Hne _. now apply get_expiring_authority_certificates_exact.
Qed.

Lemma authority_scan_exact_witness :
  get_expiring_authority_certificates (Config.mk None (Some []) None) 0 [ca_1]
  = Raise (ValueError "max() arg is an empty sequence") /\
  exists certs,
    get_expiring_authority_certificates default_config 0 [ca_1; cert_abc] = Ok certs /\
    (In ca_1 certs <->
     In ca_1 [ca_1; cert_abc] /\ eligible_authority ca_1 /\
     py_in (days_remaining 0 ca_1) [365; 180] = true).
Proof.
  split.
  - apply (proj1 (authority_scan_exact (Config.mk None (Some []) None) 0 [ca_1])).
    reflexivity.
  - destruct (proj2 (authority_scan_exact default_config 0 [ca_1; cert_abc]))
      as (certs & Hrun & Hiff).
    + discriminate.
    + intros m Hm. injection Hm as <-. vm_compute.
      repeat split; discriminate.
    + exists certs. split; [exact Hrun|]. apply Hiff.
Defined.

(** ** Notifications that are not sent *)

Lemma for_loop_none {S A R} (l : list A) (body : A -> M S (option R)) s :
  (forall x, In x l -> body x = ret None) ->
  for_loop l body s = (Ok None, s).
Proof.
  intros H. rewrite <- (app_nil_r l). now rewrite for_loop_skip.
Qed.

(** X7: the senders that do nothing.  With notify off, none of the four
    senders sends, logs or counts anything, and each hands back [None];
    so does [send_rotation_failure_notification] on any day but the one
    with 7 days left; and so does [send_rotation_notification] when no
    notification of the certificate is active, configured and
    rotation-enabled: there is no fallback to the owner there. *)
Theorem notifications_not_sent app now c p t :
  (Certificate.notify c = false ->
   send_revocation_notification app c t = (Ok RNone, t) /\
   send_rotation_notification app c t = (Ok RNone, t) /\
   send_rotation_failure_notification app now c t = (Ok RNone, t)) /\
  (PendingCertificate.notify p = false ->
   send_pending_failure_notification app p t = (Ok RNone, t)) /\
  (days_remaining now c <> 7 ->
   send_rotation_failure_notification app now c t = (Ok RNone, t)) /\
  ((forall n, In n (Certificate.notifications c) -> rotation_enabled n = false) ->
   send_rotation_notification app c t = (Ok RNone, t)).
Proof.
  split; [|split; [|split]].
  - intros H. unfold send_revocation_notification, send_rotation_notification,
      send_rotation_failure_notification. rewrite H. auto.
  - intros H. unfold send_pending_failure_notification. now rewrite H.
  - intros H. unfold send_rotation_failure_notification.
    destruct (Certificate.notify c); [|reflexivity]. cbn [negb].
    apply Z.eqb_neq in H. unfold days_remaining in H. now rewrite H.
  - intros H. unfold send_rotation_notification.
    destruct (Certificate.notify c); [|reflexivity]. cbn [negb].
    unfold bind. rewrite for_loop_none; [reflexivity|].
    intros n Hn. now rewrite (H n Hn).
Qed.

Lemma notifications_not_sent_witness :
  send_rotation_notification sample_app cert_abc [] = (Ok RNone, []) /\
  send_rotation_failure_notification sample_app 0 cert_abc [] = (Ok RNone, []).
Proof.
  destruct (notifications_not_sent sample_app 0 cert_abc pending_bare [])
    as (_ & _ & Hday & Hrot).
  split.
  - apply Hrot. intros n [<-|[]]. reflexivity.
  - apply Hday. vm_compute. discriminate.
Defined.

(** ** Rotation, further *)

(** X8: when the source plugin's [update_endpoint] raises, the exception
    comes out of [rotate_certificate] and the rotation is not applied:
    the endpoint keeps its certificate, no notify flag changes and no
    row is written. *)
Theorem rotate_certificate_plugin_failure endpoint new_cert s e :
  Deployment.SourcePlugin.update_endpoint
    (Deployment.Endpoint.source (Deployment.Store.endpoints s endpoint))
    (Deployment.Endpoint.name (Deployment.Store.endpoints s endpoint))
    (Deployment.Store.certificates s new_cert) = Some e ->
  exists s',
    Deployment.rotate_certificate endpoint new_cert s = (Raise e, s') /\
    Deployment.Store.endpoints s' = Deployment.Store.endpoints s /\
    Deployment.Store.certificates s' = Deployment.Store.certificates s /\
    Deployment.Store.db_endpoints s' = Deployment.Store.db_endpoints s /\
    Deployment.Store.db_certificates s' = Deployment.Store.db_certificates s.
Proof.
  intros H. eexists.
  unfold Deployment.rotate_certificate, bind, Deployment.update_endpoint.
  rewrite H. cbn. auto.
Qed.



(** ** Splitting and joining *)

Example split_on_examples :
  split_on "," "a@x.org,b@x.org" = ["a@x.org"; "b@x.org"] /\
  split_on "," "a,,b," = ["a"; ""; "b"; ""] /\
  split_on "," "" = [""].
Proof. repeat split. Qed.

Example capitalize_examples :
  capitalize "expiration" = "Expiration" /\ capitalize "fAILED" = "Failed".
Proof. split; reflexivity. Qed.

Lemma split_on_nonempty sep s : split_on sep s <> [].
Proof.
  destruct s as [|c s]; simpl; [discriminate|].
  destruct (Ascii.eqb c sep); [discriminate|].
  destruct (split_on sep s); discriminate.
Qed.

Lemma split_on_free sep s : free_of sep s -> split_on sep s = [s].
Proof.
  induction s as [|c s IH]; intros H; simpl; [reflexivity|].
  assert (Hc : Ascii.eqb c sep = false).
  { apply Ascii.eqb_neq. apply H. simpl. now left. }
  rewrite Hc, IH; [reflexivity|]. intros d Hd. apply H. simpl. now right.
Qed.

Lemma split_on_append_free sep x s :
  free_of sep x ->
  split_on sep (String.append x (String sep s)) = x :: split_on sep s.
Proof.
  induction x as [|c x IH]; intros H; simpl.
  - now rewrite Ascii.eqb_refl.
  - assert (Hc : Ascii.eqb c sep = false).
    { apply Ascii.eqb_neq. apply H. simpl. now left. }
    rewrite Hc, IH; [reflexivity|]. intros d Hd. apply H. simpl. now right.
Qed.

Lemma join_cons sep x y rest :
  join sep (x :: y :: rest) = String.append x (String.append sep (join sep (y :: rest))).
Proof. reflexivity. Qed.

Lemma join_split s : join "," (split_on "," s) = s.
Proof.
  induction s as [|c s IH]; [reflexivity|]. simpl split_on.
  destruct (Ascii.eqb_spec c ",") as [->|Hc].
  - destruct (split_on "," s) as [|p ps] eqn:E.
    + now destruct (split_on_nonempty "," s).
    + rewrite join_cons, IH. reflexivity.
  - destruct (split_on "," s) as [|p ps] eqn:E.
    + now destruct (split_on_nonempty "," s).
    + destruct ps as [|q ps].
      * simpl in *. now rewrite IH.
      * rewrite join_cons.
        change (String.append (String c p) ?x) with (String c (String.append p x)).
        rewrite <- join_cons. now rewrite IH.
Qed.

Lemma split_join l :
  l <> [] -> (forall x, In x l -> free_of "," x) ->
  split_on "," (join "," l) = l.
Proof.
  induction l as [|x l IH]; intros Hne Hfree; [now destruct Hne|].
  destruct l as [|y l].
  - simpl. apply split_on_free. apply Hfree. now left.
  - rewrite join_cons. change (String.append "," ?s) with (String "," s).
    rewrite split_on_append_free by (apply Hfree; now left).
    rewrite IH; [reflexivity|discriminate|].
    intros z Hz. apply Hfree. now right.
Qed.

(** Joining with commas and splitting at commas undo each other:
    the pieces of any string join back to it, and a non-empty list of
    strings that hold no comma is what its joined string splits into. *)
Theorem split_join_roundtrip :
  (forall s, join "," (split_on "," s) = s) /\
  (forall l, l <> [] -> (forall x, In x l -> free_of "," x) ->
             split_on "," (join "," l) = l).
Proof. split; [exact join_split|exact split_join]. Qed.

Lemma split_join_roundtrip_witness :
  split_on "," (join "," ["a@example.com"; "b@example.com"])
  = ["a@example.com"; "b@example.com"].
Proof.
  apply (proj2 split_join_roundtrip); [discriminate|].
  intros x [<-|[<-|[]]] c Hc; vm_compute in Hc;
    repeat (destruct Hc as [<-|Hc]; [discriminate|]); destruct Hc.
Defined.

(** ** The test plugin *)

Lemma list_of_set_spec l :
  List.NoDup (list_of_set l) /\ forall x, In x (list_of_set l) <-> In x l.
Proof.
  unfold list_of_set. split.
  - apply NoDup_ListNoDup. apply NoDup_elements.
  - intros x. rewrite <- !list_elem_of_In, elem_of_elements, elem_of_list_to_set.
    reflexivity.
Qed.

(** X11: the test plugin's [get_recipients] returns exactly when the
    [recipients] option is a non-empty string and the additional
    recipients are a list; what it returns holds no address twice, and
    holds an address if and only if it is a piece of the option between
    commas or one of the additional recipients. *)
Theorem test_plugin_get_recipients options additional :
  (forall r,
     TestNotificationPlugin_get_recipients options additional = Ok r ->
     exists s extra,
       get_plugin_option "recipients" options = PyStr s /\ s <> "" /\
       additional = Some extra /\
       List.NoDup r /\
       forall x, In x r <-> In x (split_on "," s) \/ In x extra) /\
  (forall s extra,
     get_plugin_option "recipients" options = PyStr s -> s <> "" ->
     additional = Some extra ->
     exists r, TestNotificationPlugin_get_recipients options additional = Ok r).
Proof.
  unfold TestNotificationPlugin_get_recipients. split.
  - intros r H.
    destruct (get_plugin_option "recipients" options) as [|z|s]; simpl in H.
    + discriminate.
    + destruct (Z.eqb z 0); discriminate.
    + destruct (String.eqb s "") eqn:Hs; simpl in H; [discriminate|].
      apply String.eqb_neq in Hs.
      destruct additional as [extra|]; [|discriminate].
      injection H as <-. exists s, extra.
      destruct (list_of_set_spec (split_on "," s ++ extra)) as [Hnd Hin].
      repeat split; try assumption.
      * intros Hx. apply Hin in Hx. now apply in_app_iff.
      * intros Hx. apply Hin. now apply in_app_iff.
  - intros s extra Hopt Hs Hadd. rewrite Hopt, Hadd. simpl.
    apply String.eqb_neq in Hs. rewrite Hs. simpl. eauto.
Qed.

Lemma test_plugin_get_recipients_witness :
  exists r,
    TestNotificationPlugin_get_recipients (sample_options 10 "days")
      (Some ["security@example.com"]) = Ok r /\
    (In "security@example.com" r /\ In "ops@example.com" r).
Proof.
  destruct (proj2 (test_plugin_get_recipients (sample_options 10 "days")
                     (Some ["security@example.com"]))
              "ops@example.com" ["security@example.com"] eq_refl)
    as [r Hr]; [discriminate|reflexivity|].
  exists r. split; [exact Hr|].
  destruct (proj1 (test_plugin_get_recipients (sample_options 10 "days")
                     (Some ["security@example.com"])) r Hr)
    as (s & extra & Hs & _ & Hextra & _ & Hin).
  injection Hs as <-. injection Hextra as <-.
  split; apply Hin; [right|left]; simpl; auto.
Defined.



(** ** The email plugin *)

Lemma deliveries_app (t l : list EmailPlugin.event) :
  EmailPlugin.deliveries (t ++ l) = EmailPlugin.deliveries t ++ EmailPlugin.deliveries l.
Proof. apply filter_app. Qed.

Lemma deliver_deliveries client ev t :
  EmailPlugin.is_delivery ev = true ->
  EmailPlugin.deliveries (snd (EmailPlugin.deliver client ev t))
  = EmailPlugin.deliveries t ++ [ev].
Proof.
  intros H. unfold EmailPlugin.deliver.
  destruct (client t ev); cbn [snd]; rewrite deliveries_app; simpl; now rewrite H.
Qed.

(** X13: the email plugin's [send] and its [__init__] agree.  When the
    template renders and [__init__] accepts the configuration, [send]
    calls one mail client, once, with the targets it was given, the
    subject made of the capitalised notification type, and the rendered
    template as HTML.  When [__init__] rejects the configured sender,
    [send] calls no mail client and still returns normally.  When the
    template raises, so does [send], before anything else. *)
Theorem email_send_delivers world config ty msg targets options t :
  (forall body,
     EmailPlugin.render_html world config ty options msg = Ok body ->
     EmailPlugin.init config = EmailPlugin.Initialized ->
     exists ev,
       EmailPlugin.deliveries (snd (EmailPlugin.send world config ty msg targets options t))
       = EmailPlugin.deliveries t ++ [ev] /\
       EmailPlugin.delivery_targets ev = targets /\
       EmailPlugin.delivery_subject ev
       = String.append "Lemur: " (String.append (capitalize ty) " Notification") /\
       EmailPlugin.delivery_html ev = body) /\
  (forall body,
     EmailPlugin.render_html world config ty options msg = Ok body ->
     EmailPlugin.init config <> EmailPlugin.Initialized ->
     EmailPlugin.send world config ty msg targets options t
     = (Ok tt, t ++ [EmailPlugin.LoggerInfo targets])) /\
  (forall e,
     EmailPlugin.render_html world config ty options msg = Raise e ->
     EmailPlugin.send world config ty msg targets options t = (Raise e, t)).
Proof.
  unfold EmailPlugin.send, EmailPlugin.init, bind, lift. split; [|split].
  - intros body Hbody Hinit. rewrite Hbody.
    destruct (String.eqb _ "ses") eqn:Hses.
    + eexists. split.
      { unfold EmailPlugin.send_via_ses. rewrite deliver_deliveries by reflexivity.
        rewrite deliveries_app. simpl. now rewrite app_nil_r. }
      repeat split.
    + destruct (String.eqb _ "smtp") eqn:Hsmtp; [|discriminate].
      eexists. split.
      { unfold EmailPlugin.send_via_smtp. rewrite deliver_deliveries by reflexivity.
        rewrite deliveries_app. simpl. now rewrite app_nil_r. }
      repeat split.
  - intros body Hbody Hinit. rewrite Hbody.
    destruct (String.eqb _ "ses"); [now destruct Hinit|].
    destruct (String.eqb _ "smtp"); [now destruct Hinit|]. reflexivity.
  - intros e He. now rewrite He.
Qed.

Lemma email_send_delivers_witness :
  (exists ev,
     EmailPlugin.deliveries
       (snd (EmailPlugin.send sample_world smtp_config "expiration" (MsgMany [])
               ["ops@example.com"] None []))
     = [ev] /\
     EmailPlugin.delivery_targets ev = ["ops@example.com"] /\
     EmailPlugin.delivery_subject ev = "Lemur: Expiration Notification" /\
     EmailPlugin.delivery_html ev = "<html>expiration.html") /\
  EmailPlugin.send sample_world sendgrid_config "expiration" (MsgMany [])
    ["ops@example.com"] None []
  = (Ok tt, [EmailPlugin.LoggerInfo ["ops@example.com"]]).
Proof.
  destruct (email_send_delivers sample_world smtp_config "expiration" (MsgMany [])
              ["ops@example.com"] None []) as (Hsend & _ & _).
  destruct (email_send_delivers sample_world sendgrid_config "expiration" (MsgMany [])
              ["ops@example.com"] None []) as (_ & Hdrop & _).
  split.
  - destruct (Hsend "<html>expiration.html" eq_refl eq_refl)
      as (ev & Hev & Ht & Hs & Hh).
    exists ev. repeat split; assumption.
  - apply (Hdrop "<html>expiration.html" eq_refl). discriminate.
Defined.

(** X14: the list [filter_recipients] hands back holds an address if
    and only if it is a piece of the [recipients] option between commas
    and is not excluded, in the order of the option; without the
    option it hands back [None], not a list. *)
Theorem filter_recipients_excludes options excluded :
  (forall l,
     EmailPlugin.filter_recipients options excluded = Ok (EmailPlugin.Filtered l) ->
     exists s,
       get_plugin_option "recipients" options = PyStr s /\ s <> "" /\
       l = List.filter (EmailPlugin.not_in excluded) (split_on "," s) /\
       forall x, In x l <-> In x (split_on "," s) /\ ~ In x excluded) /\
  (get_plugin_option "recipients" options = PyNone ->
   EmailPlugin.filter_recipients options excluded = Ok (EmailPlugin.Unfiltered PyNone)).
Proof.
  unfold EmailPlugin.filter_recipients. split.
  - intros l H.
    destruct (get_plugin_option "recipients" options) as [|z|s]; simpl in H.
    + discriminate.
    + destruct (Z.eqb z 0); discriminate.
    + destruct (String.eqb s "") eqn:Hs; simpl in H; [discriminate|].
      apply String.eqb_neq in Hs. injection H as <-. exists s.
      repeat split; try assumption.
      * now apply filter_In in H.
      * apply filter_In in H as [_ H]. unfold EmailPlugin.not_in in H.
        apply negb_true_iff in H. intros Hx.
        assert (existsb (String.eqb x) excluded = true); [|congruence].
        apply existsb_exists. exists x. split; [exact Hx|apply String.eqb_refl].
      * intros [Hx Hex]. apply filter_In. split; [exact Hx|].
        unfold EmailPlugin.not_in. apply negb_true_iff.
        destruct (existsb (String.eqb x) excluded) eqn:E; [|reflexivity].
        apply existsb_exists in E as (y & Hy & Hxy).
        apply String.eqb_eq in Hxy. subst. contradiction.
  - intros H. now rewrite H.
Qed.

Lemma filter_recipients_excludes_witness :
  EmailPlugin.filter_recipients
    [PluginOption.mk "recipients" (PyStr "a@example.com,owner@example.com")]
    ["owner@example.com"]
  = Ok (EmailPlugin.Filtered ["a@example.com"]) /\
  ~ In "owner@example.com" ["a@example.com"].
Proof.
  assert (E : EmailPlugin.filter_recipients
                [PluginOption.mk "recipients" (PyStr "a@example.com,owner@example.com")]
                ["owner@example.com"]
              = Ok (EmailPlugin.Filtered ["a@example.com"])) by reflexivity.
  split; [exact E|].
  destruct (proj1 (filter_recipients_excludes _ _) _ E) as (s & _ & _ & _ & Hin).
  intros H. apply Hin in H as [_ H]. apply H. simpl. auto.
Defined.

(** ** The notification service *)

Lemma find_filter_nil {A} (f : A -> bool) (l : list A) :
  List.find f l = None <-> List.filter f l = [].
Proof.
  induction l as [|a l IH]; simpl; [tauto|].
  destruct (f a); [split; discriminate|exact IH].
Qed.

Lemma find_app_last {A} (f : A -> bool) (l : list A) (x : A) :
  List.find f l = None -> f x = true -> List.find f (l ++ [x]) = Some x.
Proof.
  induction l as [|a l IH]; simpl; intros H Hx; [now rewrite Hx|].
  destruct (f a); [discriminate|auto].
Qed.

(** X15: [create_default_notifications] creates at most one
    notification per base name.  With no recipients it hands back the
    empty list and touches nothing.  Otherwise it hands back the
    notification labelled [DEFAULT_] and the base name: the existing one,
    untouched, when there is one, whatever recipients and intervals are
    passed; else a new one with the recipients joined by commas, the
    given or the default intervals [30, 15, 2] and the default plugin.
    A second call, with any recipients, hands back the same
    notification and creates nothing. *)
Theorem create_default_notifications_once config base_name recipients intervals db :
  (recipients = [] ->
   NotificationService.create_default_notifications config base_name recipients
     intervals db = (Ok NotificationService.NoNotifications, db)) /\
  (recipients <> [] ->
   exists row db',
     NotificationService.create_default_notifications config base_name recipients
       intervals db = (Ok (NotificationService.TheNotification row), db') /\
     NotificationService.Row.label row = String.append "DEFAULT_" base_name /\
     (NotificationService.labelled (String.append "DEFAULT_" base_name) db <> [] ->
      db' = db /\ In row (NotificationService.Db.rows db)) /\
     (NotificationService.labelled (String.append "DEFAULT_" base_name) db = [] ->
      NotificationService.labelled (String.append "DEFAULT_" base_name) db' = [row] /\
      NotificationService.Row.options row
      = NotificationService.default_options recipients /\
      NotificationService.Row.expiration_intervals row
      = match intervals with
        | Some l => l
        | None =>
            config_get
              (NotificationService.Config.LEMUR_DEFAULT_EXPIRATION_NOTIFICATION_INTERVALS
                 config) [30; 15; 2]
        end /\
      NotificationService.Row.plugin_name row
      = config_get (NotificationService.Config.LEMUR_DEFAULT_NOTIFICATION_PLUGIN config)
          "email-notification") /\
     forall recipients' intervals',
       recipients' <> [] ->
       NotificationService.create_default_notifications config base_name recipients'
         intervals' db' = (Ok (NotificationService.TheNotification row), db')).
Proof.
  unfold NotificationService.create_default_notifications,
    NotificationService.get_by_label, NotificationService.database_get_by_label,
    NotificationService.labelled, bind, ret.
  split; [intros ->; reflexivity|].
  intros Hne. apply truthy_list_nonempty in Hne. rewrite Hne. cbn [negb].
  destruct (List.find _ (NotificationService.Db.rows db)) as [existing|] eqn:Hfind.
  - exists existing, db. split; [reflexivity|].
    pose proof (find_some _ _ Hfind) as [Hin Hlabel].
    apply String.eqb_eq in Hlabel. split; [exact Hlabel|]. split; [auto|]. split.
    + intros Hnil. apply find_filter_nil in Hnil. congruence.
    + intros recipients' intervals' Hne'. apply truthy_list_nonempty in Hne'.
      rewrite Hne'. cbn [negb]. now rewrite Hfind.
  - eexists. eexists. split; [reflexivity|]. cbn.
    split; [reflexivity|]. split; [|split].
    + intros Hnil. apply find_filter_nil in Hfind. contradiction.
    + intros Hnil. rewrite filter_app, Hnil. cbn. rewrite String.eqb_refl.
      repeat split.
    + intros recipients' intervals' Hne'. apply truthy_list_nonempty in Hne'.
      rewrite Hne'. cbn [negb]. cbn [NotificationService.Db.rows].
      rewrite find_app_last; [reflexivity|exact Hfind|]. cbn. apply String.eqb_refl.
Qed.

Lemma create_default_notifications_once_witness :
  exists row,
    NotificationService.create_default_notifications service_config "OPS"
      ["someone.else@example.com"] (Some [7]) sample_db
    = (Ok (NotificationService.TheNotification row), sample_db) /\
    NotificationService.Row.options row
    = NotificationService.default_options ["ops@example.com"].
Proof.
  destruct (proj2 (create_default_notifications_once service_config "OPS"
                     ["someone.else@example.com"] (Some [7]) sample_db))
    as (row & db' & Hrun & _ & Hexisting & _); [discriminate|].
  destruct Hexisting as [-> Hin]; [discriminate|].
  exists row. split; [exact Hrun|].
  destruct Hin as [<-|[]]. reflexivity.
Defined.

(** X16: what [create_default_notifications] writes into the options is
    what the email plugin reads back: with recipients that hold no comma
    and are not the one empty string, [filter_recipients] with nothing
    excluded gives the recipients back from the options built for
    them. *)
Theorem default_options_roundtrip recipients :
  recipients <> [] ->
  (forall x, In x recipients -> free_of "," x) ->
  join "," recipients <> "" ->
  EmailPlugin.filter_recipients
    (map NotificationService.as_plugin_option
       (NotificationService.default_options recipients)) []
  = Ok (EmailPlugin.Filtered recipients).
Proof.
  intros Hne Hfree Hjoin. unfold EmailPlugin.filter_recipients. cbn.
  apply String.eqb_neq in Hjoin. rewrite Hjoin. cbn.
  rewrite split_join by assumption.
  do 2 f_equal. induction recipients as [|x l IH]; [reflexivity|].
  clear IH. generalize (x :: l). intros l'.
  induction l' as [|y l' IH]; [reflexivity|]. simpl. now rewrite IH.
Qed.

Lemma default_options_roundtrip_witness :
  EmailPlugin.filter_recipients
    (map NotificationService.as_plugin_option
       (NotificationService.default_options ["a@example.com"; "b@example.com"])) []
  = Ok (EmailPlugin.Filtered ["a@example.com"; "b@example.com"]).
Proof.
  apply default_options_roundtrip; [discriminate| |discriminate].
  intros x [<-|[<-|[]]] c Hc; vm_compute in Hc;
    repeat (destruct Hc as [<-|Hc]; [discriminate|]); destruct Hc.
Defined.

(** X17: a notification that carries the options
    [create_default_notifications] builds has no interval and no unit;
    when it is active and the first notification of a certificate the
    loop cannot get through, [needs_expiration_notification] raises the
    invalid base unit exception for the unit [None]. *)
Theorem default_options_have_no_unit now c pre n post recipients :
  Notification.options n
  = map NotificationService.as_plugin_option
      (NotificationService.default_options recipients) ->
  Notification.active n = true ->
  Certificate.notifications c = pre ++ n :: post ->
  (forall m, In m pre -> well_configured m) ->
  needs_expiration_notification now c
  = Raise (Exception "Invalid base unit for expiration interval: None").
Proof.
  intros Hopts Hactive Hsplit Hpre. unfold needs_expiration_notification.
  rewrite Hsplit. apply needs_expiration_loop_first_failure.
  - now apply forallb_passes.
  - unfold active_configured. rewrite Hactive, Hopts. reflexivity.
  - unfold interval_of, unit_of. rewrite Hopts. reflexivity.
Qed.

Lemma default_options_have_no_unit_witness :
  needs_expiration_notification 0 cert_default
  = Raise (Exception "Invalid base unit for expiration interval: None").
Proof.
  apply (default_options_have_no_unit 0 cert_default [] default_notification []
           ["ops@example.com"]); try reflexivity.
  intros m [].
Defined.

Lemma find_map_replace (rows : list NotificationService.Row.t) i old new :
  List.find (fun r => Z.eqb (NotificationService.Row.id r) i) rows = Some old ->
  NotificationService.Row.id new = i ->
  List.find (fun r => Z.eqb (NotificationService.Row.id r) i)
    (map (fun r => if Z.eqb (NotificationService.Row.id r) i then new else r) rows)
  = Some new.
Proof.
  intros Hfind Hnew. induction rows as [|r rows IH]; simpl in *; [discriminate|].
  destruct (Z.eqb (NotificationService.Row.id r) i) eqn:E.
  - now rewrite Hnew, Z.eqb_refl.
  - rewrite E. auto.
Qed.

(** X18: [update] on an id that is not in the table raises
    [AttributeError] and writes nothing.  On an id that is, it writes
    the label, plugin name, options, description, active flag and
    certificates it is given and keeps the id and the expiration
    intervals; [get] then finds the row as written, and the rows of
    other ids are as they were. *)
Theorem update_writes_row notification_id label plugin_name options description
    active certificates db :
  (List.find (fun r => Z.eqb (NotificationService.Row.id r) notification_id)
     (NotificationService.Db.rows db) = None ->
   NotificationService.update notification_id label plugin_name options description
     active certificates db
   = (Raise (AttributeError "'NoneType' object has no attribute 'label'"), db)) /\
  (forall old,
     List.find (fun r => Z.eqb (NotificationService.Row.id r) notification_id)
       (NotificationService.Db.rows db) = Some old ->
     exists db',
       NotificationService.update notification_id label plugin_name options
         description active certificates db
       = (Ok (updated_row old label plugin_name options description active
                certificates), db') /\
       NotificationService.get notification_id db'
       = (Ok (Some (updated_row old label plugin_name options description active
                      certificates)), db') /\
       length (NotificationService.Db.rows db')
       = length (NotificationService.Db.rows db) /\
       forall r,
         In r (NotificationService.Db.rows db) ->
         NotificationService.Row.id r <> notification_id ->
         In r (NotificationService.Db.rows db')).
Proof.
  unfold NotificationService.update, NotificationService.get,
    NotificationService.database_get, NotificationService.database_update,
    bind, raise. split.
  - intros H. now rewrite H.
  - intros old H. rewrite H. eexists. split; [reflexivity|].
    pose proof (find_some _ _ H) as [_ Hid]. apply Z.eqb_eq in Hid.
    subst notification_id. cbn. split; [|split].
    + unfold updated_row.
      rewrite (find_map_replace _ _ old); [reflexivity|exact H|reflexivity].
    + apply length_map.
    + intros r Hr Hne. apply in_map_iff. exists r. split; [|exact Hr].
      apply Z.eqb_neq in Hne. now rewrite Hne.
Qed.

Lemma update_writes_row_witness :
  exists db',
    NotificationService.update 1 "OPS" "slack-notification" [] "renamed" false [4]
      sample_db
    = (Ok (NotificationService.Row.mk 1 "OPS" "slack-notification" [] [30; 15; 2]
             "renamed" (Some false) [4]), db') /\
  NotificationService.update 5 "OPS" "slack-notification" [] "renamed" false [4]
    sample_db
  = (Raise (AttributeError "'NoneType' object has no attribute 'label'"), sample_db).
Proof.
  destruct (update_writes_row 1 "OPS" "slack-notification" [] "renamed" false [4]
              sample_db) as [_ Hknown].
  destruct (update_writes_row 5 "OPS" "slack-notification" [] "renamed" false [4]
              sample_db) as [Hunknown _].
  destruct (Hknown _ eq_refl) as (db' & Hrun & _).
  exists db'. split; [exact Hrun|]. apply Hunknown. reflexivity.
Defined.

(** ** Further properties at sample inputs *)

Lemma rotate_certificate_plugin_failure_witness :
  exists s',
    Deployment.rotate_certificate 7 2 store_failing_source
    = (Raise (PluginFailure "load balancer unreachable"), s') /\
    Deployment.Store.endpoints s' = Deployment.Store.endpoints store_failing_source.
Proof.
  destruct (rotate_certificate_plugin_failure 7 2 store_failing_source
              (PluginFailure "load balancer unreachable") eq_refl)
    as (s' & Hrun & Hendpoints & _).
  exists s'. split; assumption.
Defined.



(** ** Metrics and reports *)

Lemma send_default_notification_accounted app ty data targets opts t :
  exists r added,
    send_default_notification app ty data targets opts t = (Ok r, t ++ added) /\
    accounted added r ty (Plugin.slug (default_plugin app)).
Proof.
  rewrite send_default_notification_run. cbv zeta.
  destruct (default_send_outcome app ty data targets opts t) as [e|].
  - exists RNone. eexists. split.
    + rewrite <- !app_assoc. reflexivity.
    + split.
      * eexists. rewrite !app_assoc. reflexivity.
      * intros _. exists e. rewrite !in_app_iff. simpl. tauto.
  - exists RTrue. eexists. split.
    + rewrite <- !app_assoc. reflexivity.
    + split.
      * eexists. rewrite !app_assoc. reflexivity.
      * discriminate.
Qed.

(** X19: the dispatch functions account for what they do.  Each call
    only adds to the trace; the last event it adds is its metric, whose
    status is success exactly when the call hands back [True]; and
    whenever it hands back [None], an exception has been reported to
    sentry during the call. *)
Theorem dispatch_accounted app ty data targets opts n t :
  (exists r added,
     send_default_notification app ty data targets opts t = (Ok r, t ++ added) /\
     accounted added r ty (Plugin.slug (default_plugin app))) /\
  (exists r added,
     send_plugin_notification app ty data targets n t = (Ok r, t ++ added) /\
     accounted added r ty (Plugin.slug (Notification.plugin n))).
Proof.
  split; [apply send_default_notification_accounted|].
  destruct (plugin_send_outcome ty data targets n t) as [e|] eqn:Hp.
  - rewrite (send_plugin_notification_run_failure _ _ _ _ _ _ _ Hp). cbv zeta.
    unfold after_plugin_send. exists RNone. eexists. split.
    + rewrite <- !app_assoc. reflexivity.
    + split.
      * eexists. rewrite !app_assoc. reflexivity.
      * intros _. exists e. rewrite !in_app_iff. simpl. tauto.
  - destruct (String.eqb_spec (Plugin.slug (Notification.plugin n)) "email-notification")
      as [Hs|Hs].
    + rewrite (send_plugin_notification_run_email _ _ _ _ _ _ Hs Hp).
      unfold after_plugin_send. exists RTrue. eexists. split.
      * rewrite <- !app_assoc. reflexivity.
      * split; [|discriminate]. rewrite Hs. eexists. rewrite !app_assoc. reflexivity.
    + destruct (send_default_notification_accounted app ty data targets
                  (Some (Notification.options n))
                  (after_plugin_send ty data targets n t))
        as (r & added & Hd & _ & Hsentry).
      rewrite (send_plugin_notification_run_secondary _ _ _ _ _ _ _ _ Hs Hp Hd).
      unfold after_plugin_send. exists r. eexists. split.
      * rewrite <- !app_assoc. reflexivity.
      * split.
        -- eexists. rewrite !app_assoc. reflexivity.
        -- intros Hr. destruct (Hsentry Hr) as [e He]. exists e.
           rewrite !in_app_iff. simpl. tauto.
Qed.

(** ** One dispatch, and no more *)





(** ** Exceptions outside [Exception] *)






Example send_default_notification_interrupted :
  Interrupts.send_default_notification Interrupts.keyboard sample_app "revocation"
    (MsgMany []) ["a@example.com"] None []
  = (Interrupts.Raises (Interrupts.BaseExceptionOnly Interrupts.KeyboardInterrupt),
     [LoggerDebug "lemur.notifications.messaging.send_default_notification"
        "revocation" "email-notification";
      PluginSend "email-notification" "revocation" (MsgMany []) ["a@example.com"] None]).
Proof. reflexivity. Qed.
